(** * Saham Bank (MA) spider: a model of [locations/saham_bank_ma.py]

    The spider scrapes a locator page, pulls embedded JSON payloads out of its
    script blocks, walks them for arrays of branch records, normalises each
    record into a [Feature] and emits it once per de-duplication key. For a
    JSON endpoint, [parse_api] normalises and emits the records of the
    answer.

    Conventions of the model:
    - a Python value is a term of the inductive type [value] ([None], [bool],
      [int], [float], [str], [list], [dict]); a [str] is a string of 8-bit
      characters (code points 0 to 255); a [float] is a binary64 number of the
      Standard Library's [spec_float];
    - the built-ins the spider calls ([str.strip], [str.replace], [float],
      [str], truth testing, [==] on set members, and [re] on the spider's own
      patterns) are functions of this file;
    - a [Feature] is a finite map from field names to values;
    - a call that can raise returns a [result]; a generator returns what it
      yielded and the exception that ended it, if any;
    - [DictParser.parse] and [json.loads] are parameters of the spider. *)

From Stdlib Require Import ZArith NArith String Ascii List Bool Lia DecimalString.
From Stdlib Require Import Floats.SpecFloat.
From stdpp Require Import gmap strings.

Import ListNotations.
Local Open Scope string_scope.
Local Open Scope list_scope.

(** ** Characters *)

Definition code (c : ascii) : N := N_of_ascii c.

Definition in_range (lo hi : N) (c : ascii) : bool :=
  (lo <=? code c)%N && (code c <=? hi)%N.

(** [str.isspace] on one character, which is also what [\s] matches in a
    [str] pattern. *)
Definition is_space (c : ascii) : bool :=
  in_range 9 13 c || in_range 28 32 c || (code c =? 133)%N || (code c =? 160)%N.

Definition is_digit (c : ascii) : bool := in_range 48 57 c.

Definition is_ascii_alpha (c : ascii) : bool :=
  in_range 65 90 c || in_range 97 122 c.

(** [\w] in a [str] pattern: alphanumeric characters and the underscore. *)
Definition is_word (c : ascii) : bool :=
  is_ascii_alpha c || is_digit c || (code c =? 95)%N
  || (code c =? 170)%N || (code c =? 178)%N || (code c =? 179)%N
  || (code c =? 181)%N || (code c =? 185)%N || (code c =? 186)%N
  || in_range 188 190 c || in_range 192 214 c || in_range 216 246 c
  || in_range 248 255 c.

(** [str.lower] on one character. *)
Definition lower_char (c : ascii) : ascii :=
  if in_range 65 90 c || in_range 192 214 c || in_range 216 222 c
  then ascii_of_N (code c + 32)
  else c.

(** ** String methods *)

Fixpoint str_map (f : ascii -> ascii) (s : string) : string :=
  match s with
  | EmptyString => EmptyString
  | String c s' => String (f c) (str_map f s')
  end.

(** [s.lower()] *)
Definition str_lower (s : string) : string := str_map lower_char s.

(** [s.replace(old, new)] for one-character [old] and [new]. *)
Definition str_replace (old new : ascii) (s : string) : string :=
  str_map (fun c => if Ascii.eqb c old then new else c) s.

Fixpoint lstrip_by (p : ascii -> bool) (s : string) : string :=
  match s with
  | EmptyString => EmptyString
  | String c s' => if p c then lstrip_by p s' else s
  end.

Fixpoint rstrip_by (p : ascii -> bool) (s : string) : string :=
  match s with
  | EmptyString => EmptyString
  | String c s' =>
      match rstrip_by p s' with
      | EmptyString => if p c then EmptyString else String c EmptyString
      | t => String c t
      end
  end.

Definition strip_by (p : ascii -> bool) (s : string) : string :=
  rstrip_by p (lstrip_by p s).

(** [s.strip()] *)
Definition str_strip (s : string) : string := strip_by is_space s.

Fixpoint mem_char (c : ascii) (chars : string) : bool :=
  match chars with
  | EmptyString => false
  | String d chars' => Ascii.eqb c d || mem_char c chars'
  end.

(** [s.strip(chars)] and [s.rstrip(chars)] *)
Definition str_strip_chars (chars s : string) : string :=
  strip_by (fun c => mem_char c chars) s.

Definition str_rstrip_chars (chars s : string) : string :=
  rstrip_by (fun c => mem_char c chars) s.

Fixpoint str_repeat (c : ascii) (n : nat) : string :=
  match n with
  | O => EmptyString
  | S n' => String c (str_repeat c n')
  end.

Fixpoint str_take (n : nat) (s : string) : string :=
  match n, s with
  | S n', String c s' => String c (str_take n' s')
  | _, _ => EmptyString
  end.

Fixpoint str_drop (n : nat) (s : string) : string :=
  match n, s with
  | S n', String _ s' => str_drop n' s'
  | _, _ => s
  end.

Fixpoint str_join (sep : string) (parts : list string) : string :=
  match parts with
  | [] => EmptyString
  | [p] => p
  | p :: ps => p +:+ sep +:+ str_join sep ps
  end.

(** ** Floats

    A Python [float] is an IEEE 754 binary64 number: [spec_float] at precision
    53 and maximal exponent 1024. *)

Definition prec : Z := 53.
Definition emax : Z := 1024.

(** The binary64 number nearest to [n / d] (ties to even), for [0 <= n] and
    [0 < d]; the quotient is taken at the exponent of the smallest subnormal,
    so only the position of the remainder is left to round. *)
Definition round_ratio (neg : bool) (n d : Z) : spec_float :=
  let a := (n * 2 ^ 1074)%Z in
  let q := (a / d)%Z in
  let r := (a mod d)%Z in
  let loc := if (r =? 0)%Z then loc_Exact else loc_Inexact (2 * r ?= d)%Z in
  binary_round_aux prec emax neg q (-1074) loc.

(** The float denoted by the decimal [m * 10 ^ e10]. *)
Definition decimal_to_float (neg : bool) (m e10 : Z) : spec_float :=
  if (0 <=? e10)%Z then round_ratio neg (m * 10 ^ e10) 1
  else round_ratio neg m (10 ^ (- e10)).

Definition digit_value (c : ascii) : Z := Z.of_N (code c) - 48.

Fixpoint digits_value_from (acc : Z) (ds : string) : Z :=
  match ds with
  | EmptyString => acc
  | String c ds' => digits_value_from (10 * acc + digit_value c) ds'
  end.

Definition digits_value (ds : string) : Z := digits_value_from 0 ds.

(** The rest of a [digitpart]: digits, each optionally preceded by one
    underscore. Returns the digits read and what follows them. *)
Fixpoint digitpart_tail (s : string) : string * string :=
  match s with
  | EmptyString => (EmptyString, EmptyString)
  | String c s' =>
      if is_digit c then
        let (ds, r) := digitpart_tail s' in (String c ds, r)
      else if Ascii.eqb c "_" then
        match s' with
        | String d s'' =>
            if is_digit d then
              let (ds, r) := digitpart_tail s'' in (String d ds, r)
            else (EmptyString, s)
        | EmptyString => (EmptyString, s)
        end
      else (EmptyString, s)
  end.

Definition digitpart (s : string) : option (string * string) :=
  match s with
  | String c s' =>
      if is_digit c then
        let (ds, r) := digitpart_tail s' in Some (String c ds, r)
      else None
  | EmptyString => None
  end.

Definition take_sign (s : string) : bool * string :=
  match s with
  | String c s' =>
      if Ascii.eqb c "-" then (true, s')
      else if Ascii.eqb c "+" then (false, s')
      else (false, s)
  | EmptyString => (false, s)
  end.

(** [number ::= [digitpart] "." digitpart | digitpart ["."]]: the integer
    digits, the fraction digits and the rest. *)
Definition parse_number (s : string) : option (string * string * string) :=
  match digitpart s with
  | Some (ip, r) =>
      match r with
      | String c r' =>
          if Ascii.eqb c "." then
            match digitpart r' with
            | Some (fp, r'') => Some (ip, fp, r'')
            | None => Some (ip, EmptyString, r')
            end
          else Some (ip, EmptyString, r)
      | EmptyString => Some (ip, EmptyString, r)
      end
  | None =>
      match s with
      | String c r' =>
          if Ascii.eqb c "." then
            match digitpart r' with
            | Some (fp, r'') => Some (EmptyString, fp, r'')
            | None => None
            end
          else None
      | EmptyString => None
      end
  end.

(** [exponent ::= ("e" | "E") [sign] digitpart], up to the end of the text;
    no exponent counts as zero. *)
Definition parse_exponent (s : string) : option Z :=
  match s with
  | EmptyString => Some 0%Z
  | String c r =>
      if Ascii.eqb (lower_char c) "e" then
        let (neg, r') := take_sign r in
        match digitpart r' with
        | Some (ds, EmptyString) =>
            Some (if neg then - digits_value ds else digits_value ds)%Z
        | _ => None
        end
      else None
  end.

(** The blanks [float] strips from a [str]: the ASCII blanks and the
    non-ASCII space characters. *)
Definition is_float_space (c : ascii) : bool :=
  in_range 9 13 c || (code c =? 32)%N || (code c =? 133)%N || (code c =? 160)%N.

(** [float(s)] for a [str]; [None] stands for [ValueError]. *)
Definition float_of_str (s : string) : option spec_float :=
  let (neg, body) := take_sign (strip_by is_float_space s) in
  let lb := str_lower body in
  if String.eqb lb "inf" || String.eqb lb "infinity" then Some (S754_infinity neg)
  else if String.eqb lb "nan" then Some S754_nan
  else
    match parse_number body with
    | Some (ip, fp, r) =>
        match parse_exponent r with
        | Some e =>
            Some (decimal_to_float neg (digits_value (ip +:+ fp))
                    (e - Z.of_nat (String.length fp)))
        | None => None
        end
    | None => None
    end.

(** [float(z)] for an [int]; [None] stands for [OverflowError]. *)
Definition float_of_int (z : Z) : option spec_float :=
  match round_ratio (z <? 0)%Z (Z.abs z) 1 with
  | S754_infinity _ => None
  | f => Some f
  end.

Definition sf_eqb (x y : spec_float) : bool :=
  match x, y with
  | S754_zero a, S754_zero b => Bool.eqb a b
  | S754_infinity a, S754_infinity b => Bool.eqb a b
  | S754_nan, S754_nan => true
  | S754_finite a m e, S754_finite b n f =>
      Bool.eqb a b && (m =? n)%positive && (e =? f)%Z
  | _, _ => false
  end.

(** [str(z)] for an [int]. *)
Definition int_str (z : Z) : string :=
  DecimalString.NilZero.string_of_int (Z.to_int z).

(** *** [repr] of a float: the shortest decimal that reads back as the same
    float, the closest one to it when several do. *)

Section ShortestDecimal.
(** The positive float [m * 2 ^ e], as the fraction [vn / vd]. *)
Variables (m : positive) (e : Z).

Definition vn : Z := if (0 <=? e)%Z then (Zpos m * 2 ^ e)%Z else Zpos m.
Definition vd : Z := if (0 <=? e)%Z then 1%Z else (2 ^ (- e))%Z.

(** [v < 10 ^ k] *)
Definition below_pow10 (k : Z) : bool :=
  if (0 <=? k)%Z then (vn <? vd * 10 ^ k)%Z else (vn * 10 ^ (- k) <? vd)%Z.

(** The least [k] with [v < 10 ^ k], found next to its estimate from the
    binary exponent. *)
Definition decimal_exponent : Z :=
  let k0 := ((Zpos (digits2_pos m) + e) * 30103 / 100000)%Z in
  if below_pow10 (k0 - 1) then (k0 - 1)%Z
  else if below_pow10 k0 then k0
  else if below_pow10 (k0 + 1) then (k0 + 1)%Z
  else (k0 + 2)%Z.

(** [floor (v / 10 ^ p)] *)
Definition floor_scaled (p : Z) : Z :=
  if (0 <=? p)%Z then (vn / (vd * 10 ^ p))%Z else (vn * 10 ^ (- p) / vd)%Z.

(** [2 * v <= c * 10 ^ p] *)
Definition twice_le_scaled (c p : Z) : bool :=
  if (0 <=? p)%Z then (2 * vn <=? c * 10 ^ p * vd)%Z
  else (2 * vn * 10 ^ (- p) <=? c * vd)%Z.

Definition reads_back (d p : Z) : bool :=
  sf_eqb (decimal_to_float false d p) (S754_finite false m e).

(** With [n] digits: the neighbours of [v] below and above, whichever
    reads back, the closer one first. *)
Definition candidate (k : Z) (n : nat) : option (Z * Z) :=
  let p := (k - Z.of_nat n)%Z in
  let lo := floor_scaled p in
  let hi := (lo + 1)%Z in
  match reads_back lo p, reads_back hi p with
  | true, true => Some (if twice_le_scaled (lo + hi) p then lo else hi, p)
  | true, false => Some (lo, p)
  | false, true => Some (hi, p)
  | false, false => None
  end.

Fixpoint shortest_from (k : Z) (n fuel : nat) : Z * Z :=
  match fuel with
  | O => (floor_scaled (k - Z.of_nat n), (k - Z.of_nat n)%Z)
  | S fuel' =>
      match candidate k n with
      | Some dp => dp
      | None => shortest_from k (S n) fuel'
      end
  end.

(** The digits [d] and exponent [p] of the shortest decimal [d * 10 ^ p];
    seventeen digits always suffice for a binary64 number. *)
Definition shortest_decimal : Z * Z := shortest_from decimal_exponent 1 17.
End ShortestDecimal.

Fixpoint drop_trailing_zeros (fuel : nat) (d p : Z) : Z * Z :=
  match fuel with
  | O => (d, p)
  | S fuel' =>
      if (d mod 10 =? 0)%Z && negb (d =? 0)%Z
      then drop_trailing_zeros fuel' (d / 10)%Z (p + 1)%Z
      else (d, p)
  end.

(** The layout of [repr]: plain notation when the decimal point falls within
    [-4 < decpt <= 16], scientific notation otherwise. *)
Definition layout_digits (ds : string) (decpt : Z) : string :=
  let n := Z.of_nat (String.length ds) in
  if ((-4 <? decpt) && (decpt <=? 16))%Z then
    if (decpt <=? 0)%Z then "0." +:+ str_repeat "0" (Z.to_nat (- decpt)) +:+ ds
    else if (n <=? decpt)%Z then ds +:+ str_repeat "0" (Z.to_nat (decpt - n)) +:+ ".0"
    else str_take (Z.to_nat decpt) ds +:+ "." +:+ str_drop (Z.to_nat decpt) ds
  else
    let x := (decpt - 1)%Z in
    let xs := int_str (Z.abs x) in
    str_take 1 ds
    +:+ (if (1 <? n)%Z then "." +:+ str_drop 1 ds else "")
    +:+ "e" +:+ (if (x <? 0)%Z then "-" else "+")
    +:+ (if (Z.abs x <? 10)%Z then "0" +:+ xs else xs).

(** [repr(f)], which is also [str(f)]. *)
Definition float_repr (f : spec_float) : string :=
  match f with
  | S754_nan => "nan"
  | S754_infinity s => if s then "-inf" else "inf"
  | S754_zero s => if s then "-0.0" else "0.0"
  | S754_finite s m e =>
      let (d0, p0) := shortest_decimal m e in
      let (d, p) := drop_trailing_zeros 20 d0 p0 in
      let ds := int_str d in
      (if s then "-" else "") +:+ layout_digits ds (Z.of_nat (String.length ds) + p)
  end.

(** ** Values

    What [json.loads] produces and the spider passes around: [None], [bool],
    [int], [float], [str], [list] and [dict]. A [dict] keeps its items in
    insertion order; its keys are distinct, and a lookup reads the first (the
    only) binding of a key. *)

#[local] Set Warnings "-register-all".

Inductive value : Type :=
  | VNone
  | VBool (b : bool)
  | VInt (z : Z)
  | VFloat (f : spec_float)
  | VStr (s : string)
  | VList (l : list value)
  | VDict (d : list (string * value)).

Abbreviation pydict := (list (string * value)).

Fixpoint dict_lookup (k : string) (d : pydict) : option value :=
  match d with
  | [] => None
  | (k', v) :: d' => if String.eqb k k' then Some v else dict_lookup k d'
  end.

(** [d.get(k)] *)
Definition dict_get (d : pydict) (k : string) : value :=
  match dict_lookup k d with
  | Some v => v
  | None => VNone
  end.

(** [k in d] *)
Definition dict_has (d : pydict) (k : string) : bool :=
  match dict_lookup k d with
  | Some _ => true
  | None => false
  end.

(** [isinstance(v, list)] *)
Definition is_list (v : value) : bool :=
  match v with
  | VList _ => true
  | _ => false
  end.

(** Truth value testing, as [if v], [not v] and [v or w] use it. *)
Definition truthy (v : value) : bool :=
  match v with
  | VNone => false
  | VBool b => b
  | VInt z => negb (z =? 0)%Z
  | VFloat (S754_zero _) => false
  | VFloat _ => true
  | VStr s => negb (String.eqb s "")
  | VList l => match l with [] => false | _ => true end
  | VDict d => match d with [] => false | _ => true end
  end.

(** [a or b] *)
Definition py_or (a b : value) : value := if truthy a then a else b.

Infix "or'" := py_or (at level 50, left associativity).

(** *** [repr] and [str] *)

Definition quote1 : ascii := "'"%char.
Definition quote2 : ascii := ascii_of_N 34.
Definition backslash : ascii := ascii_of_N 92.

Definition hex_digit (n : N) : ascii :=
  if (n <? 10)%N then ascii_of_N (48 + n) else ascii_of_N (87 + n).

Definition is_printable (c : ascii) : bool :=
  in_range 32 126 c || (in_range 161 255 c && negb (code c =? 173)%N).

Definition repr_char (q c : ascii) : string :=
  if Ascii.eqb c backslash || Ascii.eqb c q then String backslash (String c "")
  else if (code c =? 9)%N then String backslash "t"
  else if (code c =? 10)%N then String backslash "n"
  else if (code c =? 13)%N then String backslash "r"
  else if is_printable c then String c ""
  else String backslash
         (String "x" (String (hex_digit (code c / 16)) (String (hex_digit (code c mod 16)) ""))).

Fixpoint repr_chars (q : ascii) (s : string) : string :=
  match s with
  | EmptyString => EmptyString
  | String c s' => repr_char q c +:+ repr_chars q s'
  end.

(** [repr(s)] for a [str]: single quotes, unless the text has a single quote
    and no double quote. *)
Definition str_repr (s : string) : string :=
  let q := if mem_char quote1 s && negb (mem_char quote2 s) then quote2 else quote1 in
  String q (repr_chars q s +:+ String q "").

Fixpoint py_repr (v : value) : string :=
  match v with
  | VNone => "None"
  | VBool b => if b then "True" else "False"
  | VInt z => int_str z
  | VFloat f => float_repr f
  | VStr s => str_repr s
  | VList l => "[" +:+ str_join ", " (map py_repr l) +:+ "]"
  | VDict d =>
      "{" +:+ str_join ", " (map (fun kv => str_repr (fst kv) +:+ ": " +:+ py_repr (snd kv)) d) +:+ "}"
  end.

(** [str(v)], which is also how an f-string formats [{v}]. *)
Definition py_str (v : value) : string :=
  match v with
  | VStr s => s
  | _ => py_repr v
  end.

(** [float(v)]; [None] stands for the [ValueError], [TypeError] or
    [OverflowError] that [float] raises. *)
Definition py_float (v : value) : option spec_float :=
  match v with
  | VStr s => float_of_str s
  | VInt z => float_of_int z
  | VBool b => Some (if b then round_ratio false 1 1 else S754_zero false)
  | VFloat f => Some f
  | _ => None
  end.

(** ** Exceptions *)

Inductive exn : Type :=
  | AttributeError
  | TypeError
  | JSONDecodeError.

Inductive result (A : Type) : Type :=
  | Ok (a : A)
  | Raise (e : exn).

Arguments Ok {A} a.
Arguments Raise {A} e.

#[export] Instance result_ret : MRet result := fun A a => Ok a.

#[export] Instance result_bind : MBind result := fun A B k c =>
  match c with
  | Ok a => k a
  | Raise e => Raise e
  end.

(** [try: c  except Exception: h] *)
Definition try_except {A : Type} (c : result A) (h : exn -> result A) : result A :=
  match c with
  | Ok a => Ok a
  | Raise e => h e
  end.

(** ** Regular expressions

    The patterns of the spider are sequences of single characters, character
    classes, greedy and lazy repetitions of a class, [\b], [$] and one
    capturing group; this is the backtracking matcher of [re] for such
    patterns. *)

Inductive atom : Type :=
  | One (p : ascii -> bool)     (* one character of a class *)
  | Many (p : ascii -> bool)    (* [p*], greedy *)
  | Few (p : ascii -> bool)     (* [p*?], lazy *)
  | Boundary                    (* [\b] *)
  | AtEnd                       (* [$] *)
  | Open                        (* [(] of group 1 *)
  | Close.                      (* [)] of group 1 *)

Abbreviation regex := (list atom).

(** A match: where it ends, and where group 1 starts and ends. *)
Record span : Type := { m_end : nat; g_start : nat; g_end : nat }.

Definition word_at (c : option ascii) : bool :=
  match c with
  | Some c => is_word c
  | None => false
  end.

Definition next_char (s : string) : option ascii :=
  match s with
  | String c _ => Some c
  | EmptyString => None
  end.

Definition newline : ascii := ascii_of_N 10.

(** [rmatch r prev s pos gs ge]: match [r] at position [pos], where [s] is
    the text from there on and [prev] the character before it. *)
Fixpoint rmatch (r : regex) : option ascii -> string -> nat -> nat -> nat -> option span :=
  match r with
  | [] => fun _ _ pos gs ge => Some {| m_end := pos; g_start := gs; g_end := ge |}
  | a :: r' =>
      let k := rmatch r' in
      match a with
      | One p => fun _ s pos gs ge =>
          match s with
          | String c s' => if p c then k (Some c) s' (S pos) gs ge else None
          | EmptyString => None
          end
      | Many p =>
          fix many (prev : option ascii) (s : string) (pos gs ge : nat) {struct s} : option span :=
            match s with
            | String c s' =>
                if p c then
                  match many (Some c) s' (S pos) gs ge with
                  | Some m => Some m
                  | None => k prev s pos gs ge
                  end
                else k prev s pos gs ge
            | EmptyString => k prev s pos gs ge
            end
      | Few p =>
          fix few (prev : option ascii) (s : string) (pos gs ge : nat) {struct s} : option span :=
            match k prev s pos gs ge with
            | Some m => Some m
            | None =>
                match s with
                | String c s' => if p c then few (Some c) s' (S pos) gs ge else None
                | EmptyString => None
                end
            end
      | Boundary => fun prev s pos gs ge =>
          if xorb (word_at prev) (word_at (next_char s)) then k prev s pos gs ge else None
      | AtEnd => fun prev s pos gs ge =>
          match s with
          | EmptyString => k prev s pos gs ge
          | String c EmptyString => if Ascii.eqb c newline then k prev s pos gs ge else None
          | _ => None
          end
      | Open => fun prev s pos _ ge => k prev s pos pos ge
      | Close => fun prev s pos gs _ => k prev s pos gs pos
      end
  end.

(** The matches of [r] in a text, leftmost first and without overlap:
    each with its start. [skip] counts the characters still inside the
    previous match. *)
Fixpoint scan (r : regex) (prev : option ascii) (s : string) (pos skip : nat)
  : list (nat * span) :=
  match s with
  | EmptyString =>
      match rmatch r prev s pos 0 0 with
      | Some m => [(pos, m)]
      | None => []
      end
  | String c s' =>
      match skip with
      | S n => scan r (Some c) s' (S pos) n
      | O =>
          match rmatch r prev s pos 0 0 with
          | Some m => (pos, m) :: scan r (Some c) s' (S pos) (m_end m - pos - 1)
          | None => scan r (Some c) s' (S pos) 0
          end
      end
  end.

(** [[m.group(1) for m in re.finditer(r, s)]] *)
Definition finditer_group1 (r : regex) (s : string) : list string :=
  map (fun sm => substring (g_start (snd sm)) (g_end (snd sm) - g_start (snd sm)) s)
      (scan r None s 0 0).

(** [re.sub(r, "", s)] *)
Fixpoint sub_from (r : regex) (prev : option ascii) (s : string) (pos skip : nat) : string :=
  match s with
  | EmptyString => EmptyString
  | String c s' =>
      match skip with
      | S n => sub_from r (Some c) s' (S pos) n
      | O =>
          match rmatch r prev s pos 0 0 with
          | Some m =>
              if (m_end m =? pos)%nat then String c (sub_from r (Some c) s' (S pos) 0)
              else sub_from r (Some c) s' (S pos) (m_end m - pos - 1)
          | None => String c (sub_from r (Some c) s' (S pos) 0)
          end
      end
  end.

Definition re_sub_empty (r : regex) (s : string) : string := sub_from r None s 0 0.

(** Pattern building blocks. *)
Definition lit (c : ascii) : atom := One (Ascii.eqb c).

(** A literal character under [re.IGNORECASE]. *)
Definition liti (c : ascii) : atom :=
  One (fun x => Ascii.eqb (lower_char x) (lower_char c)).

Fixpoint lits (s : string) : regex :=
  match s with
  | EmptyString => []
  | String c s' => lit c :: lits s'
  end.

Fixpoint litsi (s : string) : regex :=
  match s with
  | EmptyString => []
  | String c s' => liti c :: litsi s'
  end.

(** [.] under [re.DOTALL] *)
Definition any_char (c : ascii) : bool := true.

(** [[chars]] *)
Definition class (chars : string) (c : ascii) : bool := mem_char c chars.

(** ** Features

    A [Feature] (locations/items.py) is a scrapy item: a mapping from field
    names to values. Every field the spider assigns is one that [Feature]
    declares, so no assignment raises [KeyError]. *)

Abbreviation Feature := (gmap string value).

(** [item.get(k)] and [item.get(k, d)] *)
Definition item_get (item : Feature) (k : string) : value :=
  default VNone (item !! k).

Definition item_get_or (item : Feature) (k : string) (d : value) : value :=
  default d (item !! k).

(** [bool(item)]: an item is a mapping, true when it holds a field. *)
Definition item_truthy (item : Feature) : bool :=
  negb (bool_decide (item = ∅)).

(** [d[k] = v] on a [dict]: in place when the key is there, at the end
    otherwise. *)
Fixpoint dict_set (k : string) (v : value) (d : pydict) : pydict :=
  match d with
  | [] => [(k, v)]
  | (k', v') :: d' => if String.eqb k k' then (k, v) :: d' else (k', v') :: dict_set k v d'
  end.

(** Modelled from the spec: [Categories.BANK] and [apply_category]
    (locations/categories.py) are not among the sources. The spec gives
    every branch record a "category: fixed tag (bank)"; the tag is written
    into the feature's [extras] dictionary and no other field is touched. *)
Definition Categories_BANK : pydict := [("amenity", VStr "bank")].

Definition apply_category (cat : pydict) (item : Feature) : Feature :=
  let extras := match item !! "extras" with Some (VDict d) => d | _ => [] end in
  <["extras" := VDict (fold_left (fun d kv => dict_set (fst kv) (snd kv) d) cat extras)]> item.

(** Modelled from the spec: [DictParser.parse] (locations/dict_parser.py) is
    not among the sources. The spec has the normalizer fill each canonical
    field by "a small ordered list of named accessor attempts over an untyped
    key-value map, returning the first present and non-null value"; the
    lists are not given, so this instance tries one key per field, the
    field's own name. It serves to run the model on concrete records; the
    spider itself is modelled for an arbitrary parser. *)
Definition canonical_fields : list string :=
  ["ref"; "name"; "lat"; "lon"; "street_address"; "city"; "state"; "postcode";
   "phone"; "email"].

Definition DictParser_own_names (raw : pydict) : Feature :=
  list_to_map (map (fun k => (k, dict_get raw k)) canonical_fields).

(** ** The spider's patterns *)

(** [[-â€“:]] under [(?i)]: of the five characters in the class, U+20AC and
    U+201C are no 8-bit characters and match nothing here; U+00E2 also
    matches its capital U+00C2. *)
Definition saham_separator (c : ascii) : bool :=
  Ascii.eqb c "-" || (code (lower_char c) =? 226)%N || Ascii.eqb c ":".

(** [(?i)\b(saham\s*bank)\b\s*[-â€“:]\s*] *)
Definition saham_prefix : regex :=
  [Boundary; Open] ++ litsi "saham" ++ [Many is_space] ++ litsi "bank"
  ++ [Close; Boundary; Many is_space; One saham_separator; Many is_space].

(** [(?i)\bagence\s+] *)
Definition agence_prefix : regex :=
  [Boundary] ++ litsi "agence" ++ [One is_space; Many is_space].

(** [</script>$] under [re.IGNORECASE] *)
Definition script_close : regex := litsi "</script>" ++ [AtEnd].

(** [({.*?})] under [re.DOTALL] *)
Definition braces_group : regex := [Open; lit "{"; Few any_char; lit "}"; Close].

(** [window\.__NUXT__\s*=\s*({.*?});\s*</] and the three other payload
    patterns, in the order the spider tries them. *)
Definition ssr_patterns : list regex :=
  [ lits "window.__NUXT__" ++ [Many is_space; lit "="; Many is_space] ++ braces_group
      ++ [lit ";"; Many is_space] ++ lits "</";
    lits "__NEXT_DATA__" ++ [lit quote2; Many is_space; lit ":"; Many is_space]
      ++ braces_group ++ [Many is_space; One (class ",<")];
    lits "window.__APOLLO_STATE__" ++ [Many is_space; lit "="; Many is_space]
      ++ braces_group ++ [lit ";"];
    lits "window.__INITIAL_STATE__" ++ [Many is_space; lit "="; Many is_space]
      ++ braces_group ++ [lit ";"] ].

(** [(\[\s*\{.*?\}\s*\])] under [re.DOTALL] *)
Definition array_pattern : regex :=
  [Open; lit "["; Many is_space; lit "{"; Few any_char; lit "}"; Many is_space; lit "]"; Close].

(** ** [_json_sanitize] *)

Definition _json_sanitize (text : string) : string :=
  let text := str_rstrip_chars ";" (str_strip text) in
  re_sub_empty script_close (str_strip text).

(** ** [_extract_locations_from_blob] *)

(** The four key sets a list of location records is recognised by. *)
Definition location_templates : list (list string) :=
  [ ["name"; "lat"; "lng"];
    ["nom"; "latitude"; "longitude"];
    ["title"; "coordinates"];
    ["adresse"; "ville"] ].

Definition str_in (k : string) (keys : list string) : bool :=
  existsb (String.eqb k) keys.

(** [template <= keys] for [keys = set(k.lower() for k in sample.keys())] *)
Definition looks_like_location (sample : pydict) : bool :=
  let keys := map (fun kv => str_lower (fst kv)) sample in
  existsb (fun template => forallb (fun k => str_in k keys) template) location_templates.

(** What [walk] adds to [found] at one node, before it descends. *)
Definition found_here (node : value) : list value :=
  match node with
  | VList ((VDict sample :: _) as l) => if looks_like_location sample then l else []
  | _ => []
  end.

(** The nested [walk], with the list [found] it extends passed through. *)
Fixpoint walk (node : value) (found : list value) : list value :=
  let found := found ++ found_here node in
  match node with
  | VDict d =>
      (fix walk_values (d : pydict) (found : list value) : list value :=
         match d with
         | [] => found
         | kv :: d' => walk_values d' (walk (snd kv) found)
         end) d found
  | VList l =>
      (fix walk_items (l : list value) (found : list value) : list value :=
         match l with
         | [] => found
         | v :: l' => walk_items l' (walk v found)
         end) l found
  | _ => found
  end.

Definition _extract_locations_from_blob (blob : value) : list value :=
  walk blob [].

(** ** De-duplication keys

    [parse_locator] keeps the keys it has seen in a [set]: a key is the
    feature's [ref], or a tuple of two strings and a value. Membership
    hashes the key, which raises [TypeError] for a [list] or a [dict], and
    compares with [==], for which numbers are equal by value whatever
    their type. *)

Inductive key : Type :=
  | KVal (v : value)
  | KTuple (lat lon : string) (name : value).

Definition hashable (v : value) : bool :=
  match v with
  | VList _ | VDict _ => false
  | _ => true
  end.

Definition hashable_key (k : key) : bool :=
  match k with
  | KVal v => hashable v
  | KTuple _ _ name => hashable name
  end.

(** [z == f] for an [int] and a [float], compared exactly. *)
Definition int_eq_float (z : Z) (f : spec_float) : bool :=
  match f with
  | S754_zero _ => (z =? 0)%Z
  | S754_finite s m e =>
      let n := if s then Zneg m else Zpos m in
      if (0 <=? e)%Z then (z =? n * 2 ^ e)%Z else (z * 2 ^ (- e) =? n)%Z
  | _ => false
  end.

Definition bool_int (b : bool) : Z := if b then 1%Z else 0%Z.

(** [a == b] on hashable values; a NaN is found again in a set because it
    is the same object. *)
Definition py_eqb (a b : value) : bool :=
  match a, b with
  | VNone, VNone => true
  | VStr s, VStr t => String.eqb s t
  | VBool x, VBool y => Bool.eqb x y
  | VBool x, VInt z | VInt z, VBool x => (bool_int x =? z)%Z
  | VInt x, VInt y => (x =? y)%Z
  | VBool x, VFloat f | VFloat f, VBool x => int_eq_float (bool_int x) f
  | VInt z, VFloat f | VFloat f, VInt z => int_eq_float z f
  | VFloat f, VFloat g => sf_eqb f g || SFeqb f g
  | _, _ => false
  end.

Definition key_eqb (j k : key) : bool :=
  match j, k with
  | KVal a, KVal b => py_eqb a b
  | KTuple a b c, KTuple a' b' c' => String.eqb a a' && String.eqb b b' && py_eqb c c'
  | _, _ => false
  end.

(** [k in seen] *)
Definition key_in (k : key) (seen : list key) : bool := existsb (key_eqb k) seen.

(** What a generator has done when it stops: the items it yielded, and the
    exception that ended it, if one did. *)
Record run : Type := { yielded : list Feature; raised : option exn }.

Definition yield_first (item : Feature) (r : run) : run :=
  {| yielded := item :: yielded r; raised := raised r |}.

(** [for x in xs: st = body(st, x)], stopping at the first exception. *)
Fixpoint for_each {A S : Type} (body : S -> A -> result S) (xs : list A) (st : S) : result S :=
  match xs with
  | [] => Ok st
  | x :: xs' => st' ← body st x; for_each body xs' st'
  end.

(** What the two XPath queries of [parse_locator] return: the texts of the
    JSON script blocks, and the texts of all script blocks. *)
Record response : Type := { json_scripts : list string; all_scripts : list string }.

(** ** The spider *)

Section Spider.

(** [DictParser.parse] (locations/dict_parser.py) and [json.loads] are not
    among the sources: the spider is modelled for an arbitrary parser of
    dictionaries into features, and an arbitrary JSON reader that returns a
    value or raises. *)
Variable DictParser_parse : pydict -> Feature.
Variable json_loads : string -> result value.

(** *** [_dict_to_item] *)

(** [raw.get("lat") or raw.get("latitude") or raw.get("Latitude")] *)
Definition raw_lat (raw : pydict) : value :=
  dict_get raw "lat" or' dict_get raw "latitude" or' dict_get raw "Latitude".

(** [raw.get("lng") or raw.get("lon") or raw.get("longitude") or raw.get("Longitude")] *)
Definition raw_lon (raw : pydict) : value :=
  dict_get raw "lng" or' dict_get raw "lon" or' dict_get raw "longitude"
  or' dict_get raw "Longitude".

(** [if isinstance(v, str): v = v.replace(",", ".")] *)
Definition decimal_point (v : value) : value :=
  match v with
  | VStr s => VStr (str_replace "," "." s)
  | _ => v
  end.

(** [item.get("name") or raw.get("name") or raw.get("nom") or raw.get("title")] *)
Definition display_name (item : Feature) (raw : pydict) : value :=
  item_get item "name" or' dict_get raw "name" or' dict_get raw "nom"
  or' dict_get raw "title".

(** The two [re.sub] calls on the display name, each followed by [strip]. *)
Definition clean_branch (name : string) : string :=
  let branch := str_strip (re_sub_empty saham_prefix name) in
  str_strip (re_sub_empty agence_prefix branch).

(** [if name: ...]; [re.sub] raises [TypeError] for a name that is no [str]. *)
Definition set_branch (name : value) (item : Feature) : result Feature :=
  if truthy name then
    match name with
    | VStr s => Ok (delete "name" (<["branch" := VStr (clean_branch s)]> item))
    | _ => Raise TypeError
    end
  else Ok item.

(** The address and contact assignments. *)
Definition set_address (raw : pydict) (item : Feature) : Feature :=
  let item := <["street_address" :=
    item_get item "street_address" or' dict_get raw "address"
    or' dict_get raw "adresse" or' dict_get raw "street"]> item in
  let item := <["city" :=
    item_get item "city" or' dict_get raw "city" or' dict_get raw "ville"]> item in
  let item := <["state" :=
    item_get item "state" or' dict_get raw "state" or' dict_get raw "region"]> item in
  <["postcode" :=
    item_get item "postcode" or' dict_get raw "postcode" or' dict_get raw "cp"
    or' dict_get raw "zip"]> item.

Definition set_contact (raw : pydict) (item : Feature) : Feature :=
  let item := <["phone" :=
    item_get item "phone" or' dict_get raw "phone" or' dict_get raw "tel"
    or' dict_get raw "telephone"]> item in
  <["email" := item_get item "email" or' dict_get raw "email"]> item.

(** [if lat and lon: try: item["lat"] = float(lat); item["lon"] = float(lon)
    except Exception: pass] *)
Definition set_geo (lat lon : value) (item : Feature) : Feature :=
  if truthy lat && truthy lon then
    match py_float lat with
    | Some x =>
        let item := <["lat" := VFloat x]> item in
        match py_float lon with
        | Some y => <["lon" := VFloat y]> item
        | None => item
        end
    | None => item
    end
  else item.

(** [f"{item.get('city','')}-{item.get('branch','')}".strip("-")] *)
Definition synthesized_ref (item : Feature) : string :=
  str_strip_chars "-"
    (py_str (item_get_or item "city" (VStr "")) +:+ "-"
     +:+ py_str (item_get_or item "branch" (VStr ""))).

Definition set_ref (raw : pydict) (item : Feature) : Feature :=
  <["ref" :=
    dict_get raw "id" or' dict_get raw "ref" or' dict_get raw "code"
    or' dict_get raw "slug" or' VStr (synthesized_ref item)]> item.

(** [raw.get] raises [AttributeError] when [raw] is no [dict]. *)
Definition _dict_to_item (raw : value) : result Feature :=
  match raw with
  | VDict raw =>
      let lat := decimal_point (raw_lat raw) in
      let lon := decimal_point (raw_lon raw) in
      let item := DictParser_parse raw in
      item ← set_branch (display_name item raw) item;
      let item := set_address raw item in
      let item := set_contact raw item in
      let item := set_geo lat lon item in
      let item := set_ref raw item in
      Ok (apply_category Categories_BANK item)
  | _ => Raise AttributeError
  end.

(** *** [parse_locator] *)

(** [try: blob = json.loads(...); locations.extend(...)  except Exception: pass] *)
Definition try_payload (locations : list value) (text : string) : result (list value) :=
  try_except
    (blob ← json_loads (_json_sanitize text);
     Ok (locations ++ _extract_locations_from_blob blob))
    (fun _ => Ok locations).

(** The test on a bare array: a list whose first element is a [dict] with a
    name-like and a city-like key. *)
Definition looks_like_agencies (arr : value) : bool :=
  match arr with
  | VList (VDict sample :: _) =>
      existsb (dict_has sample) ["name"; "nom"; "title"]
      && existsb (dict_has sample) ["city"; "ville"; "locality"]
  | _ => false
  end.

Definition list_items (arr : value) : list value :=
  match arr with
  | VList l => l
  | _ => []
  end.

Definition try_array (locations : list value) (text : string) : result (list value) :=
  try_except
    (arr ← json_loads (_json_sanitize text);
     Ok (if looks_like_agencies arr then locations ++ list_items arr else locations))
    (fun _ => Ok locations).

(** The body of [for s in scripts]. *)
Definition scan_script (locations : list value) (s : string) : result (list value) :=
  locations ← for_each
    (fun locations pat => for_each try_payload (finditer_group1 pat s) locations)
    ssr_patterns locations;
  for_each try_array (finditer_group1 array_pattern s) locations.

Definition collect_locations (scripts : list string) : result (list value) :=
  for_each scan_script scripts [].

(** The key of an item:
    [item.get("ref") or (str(item.get("lat")), str(item.get("lon")),
    item.get("name") or item.get("branch"))] *)
Definition dedup_key (item : Feature) : key :=
  let ref := item_get item "ref" in
  if truthy ref then KVal ref
  else KTuple (py_str (item_get item "lat")) (py_str (item_get item "lon"))
         (item_get item "name" or' item_get item "branch").

(** The loop [for raw in locations] with its set [seen]. *)
Fixpoint emit (locations : list value) (seen : list key) : run :=
  match locations with
  | [] => {| yielded := []; raised := None |}
  | raw :: rest =>
      match _dict_to_item raw with
      | Raise e => {| yielded := []; raised := Some e |}
      | Ok item =>
          if negb (item_truthy item) then emit rest seen
          else
            let k := dedup_key item in
            if negb (hashable_key k) then {| yielded := []; raised := Some TypeError |}
            else if key_in k seen then emit rest seen
            else yield_first item (emit rest (k :: seen))
      end
  end.

Definition parse_locator (r : response) : run :=
  match collect_locations (json_scripts r ++ all_scripts r) with
  | Ok locations => emit locations []
  | Raise e => {| yielded := []; raised := Some e |}
  end.

(** *** [parse_api] *)

(** The keys [parse_api] looks for a list of locations under, in order. *)
Definition api_keys : list string :=
  ["locations"; "agences"; "agencies"; "items"; "branches"; "pois"].

(** [for key in api_keys: if key in data and isinstance(data[key], list):
    candidates = data[key]; break], with [candidates = []] before it. *)
Fixpoint first_list (data : pydict) (keys : list string) : list value :=
  match keys with
  | [] => []
  | key :: keys' =>
      if dict_has data key && is_list (dict_get data key)
      then list_items (dict_get data key)
      else first_list data keys'
  end.

Definition candidates (data : value) : list value :=
  match data with
  | VDict d => first_list d api_keys
  | VList l => l
  | _ => []
  end.

(** The loop [for raw in candidates], which yields every item that is not
    falsy; it keeps no set of keys. *)
Fixpoint yield_items (candidates : list value) : run :=
  match candidates with
  | [] => {| yielded := []; raised := None |}
  | raw :: rest =>
      match _dict_to_item raw with
      | Raise e => {| yielded := []; raised := Some e |}
      | Ok item =>
          if item_truthy item then yield_first item (yield_items rest)
          else yield_items rest
      end
  end.

(** [data] is what [response.json()] returned. *)
Definition parse_api (data : value) : run := yield_items (candidates data).

End Spider.

(** ** What the specification talks about *)

(** A decimal string with a comma as its decimal separator, read with the
    comma as the decimal point: an optional sign, digits, a comma, digits. *)
Fixpoint span_digits (s : string) : string * string :=
  match s with
  | EmptyString => (EmptyString, EmptyString)
  | String c s' =>
      if is_digit c then let (ds, r) := span_digits s' in (String c ds, r)
      else (EmptyString, s)
  end.

Definition read_comma_decimal (s : string) : option spec_float :=
  let (neg, body) := take_sign s in
  let (ip, r) := span_digits body in
  match ip, r with
  | String _ _, String c r' =>
      if Ascii.eqb c "," then
        match span_digits r' with
        | (String _ _ as fp, EmptyString) =>
            Some (decimal_to_float neg (digits_value (ip +:+ fp))
                    (- Z.of_nat (String.length fp)))
        | _ => None
        end
      else None
  | _, _ => None
  end.

(** A display name that [re.sub] accepts: nothing to clean, or a [str]. *)
Definition name_accepted (name : value) : bool :=
  negb (truthy name) || match name with VStr _ => true | _ => false end.

(** Every node of a nested structure, the structure itself first, in the
    order a depth-first descent meets them. *)
Fixpoint nodes (v : value) : list value :=
  v :: match v with
       | VDict d =>
           (fix values (d : pydict) : list value :=
              match d with
              | [] => []
              | kv :: d' => nodes (snd kv) ++ values d'
              end) d
       | VList l =>
           (fix items (l : list value) : list value :=
              match l with
              | [] => []
              | x :: l' => nodes x ++ items l'
              end) l
       | _ => []
       end.

(** The key set of [sample], lowercased, contains every key of one of the
    templates. *)
Definition matches_a_template (sample : pydict) : Prop :=
  exists template, In template location_templates /\
    forall k, In k template -> exists k', In k' (map fst sample) /\ str_lower k' = k.

(** The payloads [parse_locator] captures in one script block, in the order
    it tries them: those of the four state-injection patterns, then the bare
    arrays. *)
Inductive capture_kind : Type := Payload | BareArray.

Definition captures (s : string) : list (capture_kind * string) :=
  flat_map (fun pat => map (pair Payload) (finditer_group1 pat s)) ssr_patterns
  ++ map (pair BareArray) (finditer_group1 array_pattern s).

Section Contribution.

Variable json_loads : string -> result value.

(** The records one captured payload adds to [locations]: none when it does
    not parse. *)
Definition contribution (c : capture_kind * string) : list value :=
  match json_loads (_json_sanitize (snd c)) with
  | Raise _ => []
  | Ok v =>
      match fst c with
      | Payload => _extract_locations_from_blob v
      | BareArray => if looks_like_agencies v then list_items v else []
      end
  end.

End Contribution.

(** A coordinate the spider cannot convert: a [str] that [float] rejects
    even with its commas read as decimal points. *)
Definition unparsable (v : value) : Prop :=
  exists s, v = VStr s /\ float_of_str (str_replace "," "." s) = None.

(** Auxiliary predicates on digit strings. *)
Fixpoint all_digits (s : string) : bool :=
  match s with
  | EmptyString => true
  | String c s' => is_digit c && all_digits s'
  end.

Definition stops_digits (r : string) : Prop :=
  match r with
  | String c _ => is_digit c = false /\ Ascii.eqb c "_" = false
  | EmptyString => True
  end.

(** The assignments of [_dict_to_item] that follow the name clean-up, applied
    to the item that leaves it. *)
Definition finish (raw : pydict) (item : Feature) : Feature :=
  apply_category Categories_BANK
    (set_ref raw
       (set_geo (decimal_point (raw_lat raw)) (decimal_point (raw_lon raw))
          (set_contact raw (set_address raw item)))).

(** The item [_dict_to_item] returns, or the empty item when it raises. *)
Definition item_of (r : result Feature) : Feature :=
  match r with
  | Ok item => item
  | Raise _ => ∅
  end.

Definition returns (r : result Feature) : bool :=
  match r with
  | Ok _ => true
  | Raise _ => false
  end.

(** Every character of a text satisfies [p]. *)
Fixpoint str_forall (p : ascii -> bool) (s : string) : bool :=
  match s with
  | EmptyString => true
  | String c s' => p c && str_forall p s'
  end.

(** [s.count(c)] *)
Fixpoint str_count (c : ascii) (s : string) : nat :=
  match s with
  | EmptyString => 0
  | String x s' => (if Ascii.eqb x c then 1 else 0) + str_count c s'
  end.

(** The last character of a text. *)
Fixpoint str_last (s : string) : option ascii :=
  match s with
  | EmptyString => None
  | String c EmptyString => Some c
  | String _ s' => str_last s'
  end.

(** The characters of a text. *)
Abbreviation chars := list_ascii_of_string.

(** A text made of dashes only, which [strip("-")] reduces to nothing. *)
Definition only_dashes (s : string) : bool := str_forall (fun c => mem_char c "-") s.

(** The closing tag, alone and followed by a newline. *)
Definition script_close_text : string := "</script>".
Definition script_close_line : string := Eval cbv in ("</script>" +:+ String newline "").

(** What the substitution of [</script>$] by nothing leaves of a text: the
    text without a closing tag that ends it, or that is followed by one last
    newline. *)
Fixpoint without_script_close (s : string) : string :=
  if String.eqb (str_lower s) script_close_text then EmptyString
  else if String.eqb (str_lower s) script_close_line then String newline ""
  else match s with
       | EmptyString => EmptyString
       | String c s' => String c (without_script_close s')
       end.

(** A stretch of a pattern without the parentheses of the group. *)
Definition no_group (r : regex) : bool :=
  forallb (fun a => match a with Open | Close => false | _ => true end) r.

(** ** Sample records *)

Definition casablanca : pydict :=
  [("name", VStr "Saham Bank - Agence Casablanca");
   ("lat", VStr "33,5731"); ("lng", VStr "-7,5898")].

(** A branch with a name and no city, and one on the equator. *)
Definition casablanca_no_city : pydict :=
  [("name", VStr "Saham Bank - Agence Casablanca")].

Definition on_equator : pydict :=
  [("name", VStr "Agence Equateur"); ("lat", VInt 0); ("lng", VStr "9,45")].

(** Two branches of one name in one city, at two places, with no id-like
    field. *)
Definition tanger_port : pydict :=
  [("name", VStr "Agence Principale"); ("city", VStr "Tanger");
   ("lat", VStr "35.76"); ("lng", VStr "-5.83")].

Definition tanger_medina : pydict :=
  [("name", VStr "Agence Principale"); ("city", VStr "Tanger");
   ("lat", VStr "35.74"); ("lng", VStr "-5.80")].

(** Records with an id; the third repeats the id of the first. *)
Definition rabat_17 : pydict := [("id", VStr "MA-17"); ("name", VStr "Agence Rabat")].
Definition fes_21 : pydict := [("id", VStr "MA-21"); ("name", VStr "Agence Fes")].
Definition rabat_17_again : pydict :=
  [("id", VStr "MA-17"); ("name", VStr "Agence Rabat Centre")].

(** A record with an empty city and nothing else, and two nameless records
    with an empty city at two places. *)
Definition empty_city : pydict := [("ville", VStr "")].

Definition nameless_east : pydict :=
  [("ville", VStr ""); ("lat", VStr "34.0"); ("lng", VStr "-1.9")].

Definition nameless_west : pydict :=
  [("ville", VStr ""); ("lat", VStr "34.0"); ("lng", VStr "-6.8")].

(** A record whose latitude is no number. *)
Definition bad_latitude : pydict :=
  [("name", VStr "Agence Tanger"); ("lat", VStr "n/a"); ("lng", VStr "-5,8")].

(** A payload with a list of agencies two levels down, next to a list that
    is none. *)
Definition nested_payload : value :=
  VDict
    [("data",
      VDict
        [("agences",
          VList
            [VDict [("Nom", VStr "Agence Oujda"); ("Latitude", VStr "34,68");
                    ("Longitude", VStr "-1,91")];
             VDict [("nom", VStr "Agence Nador")]]);
         ("tags", VList [VDict [("label", VStr "bank")]])])].

(** A record with JSON numbers for coordinates, one whose longitude is no
    number, and one whose id is a list. *)
Definition rabat_latitude : spec_float :=
  Eval vm_compute in default S754_nan (float_of_str "34.02").

Definition rabat_longitude : spec_float :=
  Eval vm_compute in default S754_nan (float_of_str "-6.84").

Definition rabat_numeric : pydict :=
  [("nom", VStr "Agence Rabat"); ("latitude", VFloat rabat_latitude);
   ("longitude", VFloat rabat_longitude)].

Definition bad_longitude : pydict :=
  [("name", VStr "Agence Safi"); ("lat", VStr "32,3"); ("lng", VStr "west")].

Definition agadir_list_id : pydict :=
  [("id", VList [VInt 7]); ("name", VStr "Agence Agadir")].

(** A JSON answer without a list of locations. *)
Definition api_without_list : value :=
  VDict [("locations", VStr "none"); ("total", VInt 0)].

(** Two script blocks, and a reader of JSON that knows the empty object. *)
Definition state_script : string := "window.__INITIAL_STATE__ = {};".

Definition plain_script : string := "var ready = true;".

Definition loads_empty_object (text : string) : result value :=
  if String.eqb text "{}" then Ok (VDict []) else Raise JSONDecodeError.

Definition safi_latitude : spec_float :=
  Eval vm_compute in default S754_nan (float_of_str "32.3").

(** A record whose latitude has two commas. *)
Definition two_commas : pydict :=
  [("name", VStr "Agence Kenitra"); ("lat", VStr "33,573,1"); ("lng", VStr "-6,57")].

(** The sample records normalised with the parser that knows each field by
    its own name. *)
Abbreviation normalize := (_dict_to_item DictParser_own_names).

(** * Properties *)

Ltac each_char c :=
  destruct c as [[] [] [] [] [] [] [] []]; vm_compute;
  try discriminate; try reflexivity; auto.

Ltac split_ands := repeat match goal with |- _ /\ _ => split end.

Ltac run := vm_compute; reflexivity.

(** ** Reading decimals *)

Lemma digit_not_special c :
  is_digit c = true ->
  is_float_space c = false /\ Ascii.eqb c "," = false /\ Ascii.eqb c "_" = false
  /\ Ascii.eqb c "." = false /\ Ascii.eqb c "-" = false /\ Ascii.eqb c "+" = false
  /\ Ascii.eqb (lower_char c) "i" = false /\ Ascii.eqb (lower_char c) "n" = false.
Proof. each_char c; repeat split; reflexivity. Qed.

Lemma span_digits_split s ds r :
  span_digits s = (ds, r) ->
  s = ds +:+ r /\ all_digits ds = true.
Proof.
  revert ds r. induction s as [|c s IH]; intros ds r H; simpl in H.
  - inversion H. auto.
  - destruct (is_digit c) eqn:Hc.
    + destruct (span_digits s) as [ds' r'] eqn:Hs. inversion H; subst.
      destruct (IH _ _ eq_refl) as [-> Hd]. simpl. rewrite Hc. auto.
    + inversion H. auto.
Qed.

Lemma replace_digits ds r :
  all_digits ds = true ->
  str_replace "," "." (ds +:+ r) = ds +:+ str_replace "," "." r.
Proof.
  unfold str_replace.
  induction ds as [|c ds IH]; simpl; intros H; [reflexivity|].
  apply andb_true_iff in H as [Hc Hd].
  destruct (digit_not_special c Hc) as (_ & -> & _).
  now rewrite IH.
Qed.

Lemma digitpart_tail_digits ds r :
  all_digits ds = true -> stops_digits r -> digitpart_tail (ds +:+ r) = (ds, r).
Proof.
  intros Hd Hr. induction ds as [|c ds IH]; simpl.
  - destruct r as [|c r]; [reflexivity|]. simpl. destruct Hr as [-> ->]. reflexivity.
  - simpl in Hd. apply andb_true_iff in Hd as [Hc Hd]. rewrite Hc, (IH Hd). reflexivity.
Qed.

Lemma rstrip_keeps p s :
  s <> EmptyString -> rstrip_by p s = s ->
  forall a, rstrip_by p (a +:+ s) = a +:+ s.
Proof.
  intros Hne Hs a. induction a as [|c a IH]; simpl; [exact Hs|].
  rewrite IH. destruct a as [|c' a']; simpl; [|reflexivity].
  destruct s; [congruence | reflexivity].
Qed.

Lemma rstrip_digits ds :
  all_digits ds = true -> rstrip_by is_float_space ds = ds.
Proof.
  induction ds as [|c ds IH]; simpl; intros H; [reflexivity|].
  apply andb_true_iff in H as [Hc Hd]. rewrite (IH Hd).
  destruct (digit_not_special c Hc) as (-> & _). now destruct ds.
Qed.

Lemma str_app_nil_r s : s +:+ "" = s.
Proof.
  induction s as [|c s IH]; [reflexivity|].
  change (String c (s +:+ "") = String c s). now rewrite IH.
Qed.

Lemma str_app_assoc a b c : (a +:+ b) +:+ c = a +:+ (b +:+ c).
Proof.
  induction a as [|x a IH]; [reflexivity|].
  change (String x ((a +:+ b) +:+ c) = String x (a +:+ (b +:+ c))). now rewrite IH.
Qed.

(** [float] reads a signed decimal with digits on both sides of the point as
    the decimal it denotes. *)
Lemma float_of_str_decimal pre neg c0 ip d0 fp :
  (pre, neg) = ("-", true) \/ (pre, neg) = ("+", false) \/ (pre, neg) = ("", false) ->
  all_digits (String c0 ip) = true -> all_digits (String d0 fp) = true ->
  float_of_str (pre +:+ String c0 ip +:+ String "." (String d0 fp)) =
  Some (decimal_to_float neg (digits_value (String c0 ip +:+ String d0 fp))
          (- Z.of_nat (String.length (String d0 fp)))).
Proof.
  intros Hpre Hi Hf.
  pose proof Hi as Hi'. pose proof Hf as Hf'.
  simpl in Hi', Hf'. apply andb_true_iff in Hi' as [Hc0 Hip], Hf' as [Hd0 Hfp].
  destruct (digit_not_special c0 Hc0) as (Hsp & _ & _ & _ & Hm & Hp & Hci & Hcn).
  unfold float_of_str, strip_by.
  assert (Hl : lstrip_by is_float_space (pre +:+ String c0 ip +:+ String "." (String d0 fp))
               = pre +:+ String c0 ip +:+ String "." (String d0 fp)).
  { destruct Hpre as [H|[H|H]]; inversion H; subst; simpl; try reflexivity.
    now rewrite Hsp. }
  rewrite Hl.
  assert (Hr : rstrip_by is_float_space (pre +:+ String c0 ip +:+ String "." (String d0 fp))
               = pre +:+ String c0 ip +:+ String "." (String d0 fp)).
  { change (String "." (String d0 fp)) with ("." +:+ String d0 fp).
    rewrite <- !str_app_assoc.
    apply rstrip_keeps; [discriminate | now apply rstrip_digits]. }
  rewrite Hr.
  assert (Hs : take_sign (pre +:+ String c0 ip +:+ String "." (String d0 fp))
               = (neg, String c0 ip +:+ String "." (String d0 fp))).
  { destruct Hpre as [H|[H|H]]; inversion H; subst; simpl; try reflexivity.
    now rewrite Hm, Hp. }
  rewrite Hs.
  change (String c0 ip +:+ String "." (String d0 fp))
    with (String c0 (ip +:+ String "." (String d0 fp))).
  unfold str_lower. cbn [str_map String.eqb]. rewrite Hci, Hcn. cbn [andb orb].
  unfold parse_number, digitpart. rewrite Hc0.
  assert (Ht1 : digitpart_tail (ip +:+ String "." (String d0 fp))
                = (ip, String "." (String d0 fp)))
    by (apply digitpart_tail_digits; [exact Hip | split; reflexivity]).
  assert (Ht2 : digitpart_tail fp = (fp, ""))
    by (rewrite <- (str_app_nil_r fp) at 1; apply digitpart_tail_digits; [exact Hfp | exact I]).
  rewrite Ht1. cbv beta iota.
  change (Ascii.eqb "." ".") with true. cbv beta iota.
  rewrite Hd0, Ht2. cbv beta iota.
  unfold parse_exponent. now rewrite Z.sub_0_l.
Qed.

Lemma str_map_app f a b : str_map f (a +:+ b) = str_map f a +:+ str_map f b.
Proof.
  induction a as [|x a IH]; [reflexivity|].
  change (String (f x) (str_map f (a +:+ b)) = String (f x) (str_map f a +:+ str_map f b)).
  now rewrite IH.
Qed.

Lemma take_sign_body s neg body :
  take_sign s = (neg, body) ->
  exists pre, s = pre +:+ body /\
    ((pre, neg) = ("-", true) \/ (pre, neg) = ("+", false) \/ (pre, neg) = ("", false)).
Proof.
  destruct s as [|c s]; simpl.
  - intros H; inversion H. exists "". auto.
  - destruct (Ascii.eqb c "-") eqn:Hm.
    { apply Ascii.eqb_eq in Hm as ->. intros H; inversion H. exists "-". auto. }
    destruct (Ascii.eqb c "+") eqn:Hp.
    { apply Ascii.eqb_eq in Hp as ->. intros H; inversion H. exists "+". auto. }
    intros H; inversion H. exists "". auto.
Qed.

Lemma float_of_comma_decimal s x :
  read_comma_decimal s = Some x -> float_of_str (str_replace "," "." s) = Some x.
Proof.
  unfold read_comma_decimal. intros H.
  destruct (take_sign s) as [neg body] eqn:Hsign.
  destruct (span_digits body) as [ip r] eqn:Hip.
  destruct ip as [|c0 ip]; [discriminate|].
  destruct r as [|c r]; [discriminate|].
  destruct (Ascii.eqb c ",") eqn:Hc; [|discriminate].
  apply Ascii.eqb_eq in Hc; subst c.
  destruct (span_digits r) as [fp r'] eqn:Hfp.
  destruct fp as [|d0 fp]; [discriminate|].
  destruct r' as [|? ?]; [|discriminate].
  inversion H; subst x; clear H.
  apply span_digits_split in Hip as [-> Hdi].
  apply span_digits_split in Hfp as [-> Hdf].
  rewrite str_app_nil_r in Hsign.
  apply take_sign_body in Hsign as (pre & -> & Hpre).
  assert (Hrep : str_replace "," "." (pre +:+ String c0 ip +:+ String "," (String d0 fp))
                 = pre +:+ String c0 ip +:+ String "." (String d0 fp)).
  { assert (E : str_replace "," "." (String c0 ip +:+ String "," (String d0 fp))
                = String c0 ip +:+ String "." (String d0 fp)).
    { rewrite (replace_digits _ _ Hdi). f_equal.
      pose proof (replace_digits (String d0 fp) "" Hdf) as E.
      rewrite !str_app_nil_r in E. unfold str_replace in *. simpl. simpl in E.
      now rewrite E. }
    unfold str_replace in *. rewrite str_map_app, E.
    destruct Hpre as [Hq|[Hq|Hq]]; inversion Hq; subst; reflexivity. }
  rewrite Hrep. now apply float_of_str_decimal.
Qed.

(** ** Truth values *)

Lemma truthy_or a b : truthy (a or' b) = truthy a || truthy b.
Proof. unfold py_or. destruct (truthy a) eqn:E; [now rewrite E | reflexivity]. Qed.

Lemma truthy_decimal_point v : truthy (decimal_point v) = truthy v.
Proof. destruct v as [| | | |s| |]; try reflexivity. now destruct s. Qed.

Lemma float_of_str_truthy s x : float_of_str s = Some x -> truthy (VStr s) = true.
Proof. destruct s; [discriminate | reflexivity]. Qed.

(** ** [_dict_to_item] *)

Section DictToItem.

Variable DictParser_parse : pydict -> Feature.

Abbreviation d2i := (_dict_to_item DictParser_parse).

Lemma dict_to_item_stages raw item :
  d2i (VDict raw) = Ok item ->
  exists item1,
    set_branch (display_name (DictParser_parse raw) raw) (DictParser_parse raw) = Ok item1
    /\ item = finish raw item1.
Proof.
  unfold _dict_to_item, finish.
  destruct (set_branch _ _) as [item1|e]; simpl; intros H; [|discriminate].
  inversion H. eauto.
Qed.

Lemma set_branch_lookup name item item1 k :
  set_branch name item = Ok item1 -> k <> "name" -> k <> "branch" ->
  item1 !! k = item !! k.
Proof.
  unfold set_branch. intros H Hn Hb.
  destruct (truthy name); [|now inversion H].
  destruct name; try discriminate. inversion H.
  now rewrite lookup_delete_ne, lookup_insert_ne.
Qed.

Lemma set_branch_accepted name item :
  name_accepted name = true -> exists item1, set_branch name item = Ok item1.
Proof.
  unfold name_accepted, set_branch. intros H.
  destruct (truthy name); [|eauto].
  destruct name; try discriminate; eauto.
Qed.

Lemma apply_category_lookup cat (item : Feature) k :
  k <> "extras" -> apply_category cat item !! k = item !! k.
Proof. intros H. unfold apply_category. now rewrite lookup_insert_ne. Qed.

Lemma set_address_lookup raw (item : Feature) k :
  k <> "street_address" -> k <> "city" -> k <> "state" -> k <> "postcode" ->
  set_address raw item !! k = item !! k.
Proof. intros. unfold set_address. now rewrite !lookup_insert_ne. Qed.

Lemma set_contact_lookup raw (item : Feature) k :
  k <> "phone" -> k <> "email" -> set_contact raw item !! k = item !! k.
Proof. intros. unfold set_contact. now rewrite !lookup_insert_ne. Qed.

Lemma set_geo_lookup lat lon (item : Feature) k :
  k <> "lat" -> k <> "lon" -> set_geo lat lon item !! k = item !! k.
Proof.
  intros. unfold set_geo.
  destruct (truthy lat && truthy lon); [|reflexivity].
  destruct (py_float lat); [|reflexivity].
  destruct (py_float lon); now rewrite ?lookup_insert_ne.
Qed.

Lemma set_ref_lookup raw (item : Feature) k :
  k <> "ref" -> set_ref raw item !! k = item !! k.
Proof. intros. unfold set_ref. now rewrite lookup_insert_ne. Qed.

(** Coordinates that both convert are stored as floats. *)
Lemma set_geo_converted lat lon x y (item : Feature) :
  truthy lat = true -> truthy lon = true ->
  py_float lat = Some x -> py_float lon = Some y ->
  set_geo lat lon item !! "lat" = Some (VFloat x)
  /\ set_geo lat lon item !! "lon" = Some (VFloat y).
Proof.
  intros Ht1 Ht2 Hx Hy. unfold set_geo. rewrite Ht1, Ht2, Hx, Hy. simpl.
  split; [now rewrite lookup_insert_ne, lookup_insert_eq | now rewrite lookup_insert_eq].
Qed.

(** A falsy coordinate leaves the item as it is. *)
Lemma set_geo_skipped lat lon (item : Feature) :
  truthy lat = false \/ truthy lon = false -> set_geo lat lon item = item.
Proof.
  intros [H|H]; unfold set_geo; rewrite H; [reflexivity|].
  now rewrite andb_false_r.
Qed.

Lemma finish_lookup_geo raw (item : Feature) k :
  k = "lat" \/ k = "lon" ->
  finish raw item !! k
  = set_geo (decimal_point (raw_lat raw)) (decimal_point (raw_lon raw))
      (set_contact raw (set_address raw item)) !! k.
Proof.
  intros [-> | ->]; unfold finish;
    now rewrite apply_category_lookup, set_ref_lookup.
Qed.

Lemma dict_to_item_unfold raw :
  d2i (VDict raw)
  = match set_branch (display_name (DictParser_parse raw) raw) (DictParser_parse raw) with
    | Ok item1 => Ok (finish raw item1)
    | Raise e => Raise e
    end.
Proof. reflexivity. Qed.

(** [_dict_to_item] returns an item for every dictionary whose display name
    is a [str] or falsy. *)
Lemma dict_to_item_returns raw :
  name_accepted (display_name (DictParser_parse raw) raw) = true ->
  exists item1,
    set_branch (display_name (DictParser_parse raw) raw) (DictParser_parse raw) = Ok item1
    /\ d2i (VDict raw) = Ok (finish raw item1).
Proof.
  intros H. destruct (set_branch_accepted _ (DictParser_parse raw) H) as [item1 H1].
  exists item1. split; [exact H1|]. now rewrite dict_to_item_unfold, H1.
Qed.

(** C1. For every raw record whose latitude (the value read under 'lat',
    'latitude' or 'Latitude') and longitude (read under 'lng', 'lon',
    'longitude' or 'Longitude') are decimal strings with a comma as the
    decimal separator, the record [_dict_to_item] produces has 'lat' and
    'lon' set to the floats those strings denote with the comma read as a
    decimal point; and it does produce a record whenever the display name
    is a [str] or falsy (otherwise [re.sub] raises [TypeError]). *)
Theorem comma_decimal_coordinates (raw : pydict) (s1 s2 : string) (x y : spec_float) :
  raw_lat raw = VStr s1 -> raw_lon raw = VStr s2 ->
  read_comma_decimal s1 = Some x -> read_comma_decimal s2 = Some y ->
  (name_accepted (display_name (DictParser_parse raw) raw) = true ->
   exists item, d2i (VDict raw) = Ok item)
  /\ forall item, d2i (VDict raw) = Ok item ->
       item !! "lat" = Some (VFloat x) /\ item !! "lon" = Some (VFloat y).
Proof.
  intros Hlat Hlon Hx Hy.
  split; [intros Hn; destruct (dict_to_item_returns raw Hn) as (item1 & _ & H); eauto|].
  intros item Hitem.
  apply float_of_comma_decimal in Hx, Hy.
  apply dict_to_item_stages in Hitem as (item1 & _ & ->).
  rewrite !finish_lookup_geo by auto. rewrite Hlat, Hlon. simpl decimal_point.
  apply set_geo_converted; eauto using float_of_str_truthy.
Qed.

(** C10. For every raw record whose latitude or longitude (the value read
    under the latitude keys, or under the longitude keys) is 0 or any other
    falsy value, [_dict_to_item] skips the assignment of 'lat' and 'lon':
    the record it produces (and it produces one whenever the display name is
    a [str] or falsy) has both fields as [DictParser.parse] left them. *)
Theorem falsy_coordinate_is_absent (raw : pydict) :
  truthy (raw_lat raw) = false \/ truthy (raw_lon raw) = false ->
  (forall item0 : Feature,
     set_geo (decimal_point (raw_lat raw)) (decimal_point (raw_lon raw)) item0 = item0)
  /\ (name_accepted (display_name (DictParser_parse raw) raw) = true ->
      exists item, d2i (VDict raw) = Ok item)
  /\ forall item, d2i (VDict raw) = Ok item ->
       item !! "lat" = DictParser_parse raw !! "lat"
       /\ item !! "lon" = DictParser_parse raw !! "lon".
Proof.
  intros H.
  assert (Hskip : forall item : Feature,
    set_geo (decimal_point (raw_lat raw)) (decimal_point (raw_lon raw)) item = item).
  { intros item. apply set_geo_skipped. now rewrite !truthy_decimal_point. }
  split; [exact Hskip|].
  split; [intros Hn; destruct (dict_to_item_returns raw Hn) as (item1 & _ & H0); eauto|].
  intros item Hitem.
  apply dict_to_item_stages in Hitem as (item1 & H1 & ->).
  rewrite !finish_lookup_geo, Hskip by auto.
  rewrite !set_contact_lookup, !set_address_lookup by done.
  split; apply (set_branch_lookup _ _ _ _ H1); done.
Qed.

Lemma finish_lookup_other raw (item : Feature) k :
  k <> "extras" -> k <> "ref" -> k <> "lat" -> k <> "lon" -> k <> "phone" ->
  k <> "email" -> k <> "street_address" -> k <> "city" -> k <> "state" ->
  k <> "postcode" ->
  finish raw item !! k = item !! k.
Proof.
  intros. unfold finish.
  now rewrite apply_category_lookup, set_ref_lookup, set_geo_lookup,
    set_contact_lookup, set_address_lookup.
Qed.

Lemma clean_branch_casablanca :
  clean_branch "Saham Bank - Agence Casablanca" = "Casablanca".
Proof. vm_compute. reflexivity. Qed.

(** C8. For a raw record whose display name is exactly
    "Saham Bank - Agence Casablanca", [_dict_to_item] returns an item whose
    'branch' is "Casablanca" and that has no 'name' field. *)
Theorem branch_of_saham_agence_casablanca (raw : pydict) :
  display_name (DictParser_parse raw) raw = VStr "Saham Bank - Agence Casablanca" ->
  exists item, d2i (VDict raw) = Ok item
    /\ item !! "branch" = Some (VStr "Casablanca")
    /\ item !! "name" = None.
Proof.
  intros Hname. rewrite dict_to_item_unfold, Hname.
  unfold set_branch. cbn [truthy String.eqb negb]. rewrite clean_branch_casablanca.
  eexists. split; [reflexivity|].
  rewrite !finish_lookup_other by done.
  split; [now rewrite lookup_delete_ne, lookup_insert_eq | now rewrite lookup_delete_eq].
Qed.

(** The synthesized reference reads only 'city' and 'branch'. *)
Lemma synthesized_ref_ext (item item' : Feature) :
  item !! "city" = item' !! "city" -> item !! "branch" = item' !! "branch" ->
  synthesized_ref item = synthesized_ref item'.
Proof. intros Hc Hb. unfold synthesized_ref, item_get_or. now rewrite Hc, Hb. Qed.

Lemma finish_ref raw (item : Feature) :
  item_get (finish raw item) "ref"
  = dict_get raw "id" or' dict_get raw "ref" or' dict_get raw "code"
    or' dict_get raw "slug" or' VStr (synthesized_ref (finish raw item)).
Proof.
  rewrite <- (synthesized_ref_ext
    (set_geo (decimal_point (raw_lat raw)) (decimal_point (raw_lon raw))
       (set_contact raw (set_address raw item))) (finish raw item))
    by (unfold finish; now rewrite apply_category_lookup, set_ref_lookup).
  unfold item_get, finish.
  rewrite apply_category_lookup by done. unfold set_ref.
  now rewrite lookup_insert_eq.
Qed.

(** C5, as amended. For every raw record dictionary, the item
    [_dict_to_item] returns has as 'ref' the first truthy value among the
    record's 'id', 'ref', 'code' and 'slug', and otherwise the string
    '{city}-{branch}' with its leading and trailing dashes stripped; that
    'ref' is non-empty exactly when one of the four is truthy or the
    stripped string is not empty. *)
Theorem ref_after_fallback_chain (raw : pydict) (item : Feature) :
  d2i (VDict raw) = Ok item ->
  item_get item "ref"
  = dict_get raw "id" or' dict_get raw "ref" or' dict_get raw "code"
    or' dict_get raw "slug" or' VStr (synthesized_ref item)
  /\ truthy (item_get item "ref")
     = truthy (dict_get raw "id") || truthy (dict_get raw "ref")
       || truthy (dict_get raw "code") || truthy (dict_get raw "slug")
       || negb (String.eqb (synthesized_ref item) "").
Proof.
  intros Hitem. apply dict_to_item_stages in Hitem as (item1 & _ & ->).
  rewrite finish_ref. split; [reflexivity|].
  now rewrite !truthy_or.
Qed.

Lemma dict_get_absent raw k : dict_has raw k = false -> dict_get raw k = VNone.
Proof. unfold dict_has, dict_get. now destruct (dict_lookup k raw). Qed.

(** What the synthesized reference is made of when the record has no city:
    line 172 stores [None] under 'city', so the default of
    [item.get('city', '')] never applies and the f-string prints "None". *)
Lemma absent_city_prints_None raw item :
  d2i (VDict raw) = Ok item ->
  truthy (item_get (DictParser_parse raw) "city") = false ->
  dict_has raw "city" = false -> dict_has raw "ville" = false ->
  item !! "city" = Some VNone
  /\ py_str (item_get_or item "city" (VStr "")) = "None".
Proof.
  intros Hitem Hparse Hcity Hville.
  apply dict_to_item_stages in Hitem as (item1 & H1 & ->).
  assert (E : finish raw item1 !! "city" = Some VNone).
  { unfold finish.
    rewrite apply_category_lookup, set_ref_lookup, set_geo_lookup, set_contact_lookup
      by done.
    unfold set_address. rewrite !lookup_insert_ne, lookup_insert_eq by done.
    unfold item_get at 1. rewrite lookup_insert_ne by done.
    rewrite (set_branch_lookup _ _ _ _ H1) by done.
    fold (item_get (DictParser_parse raw) "city").
    rewrite (dict_get_absent _ _ Hcity), (dict_get_absent _ _ Hville).
    unfold py_or. now rewrite Hparse. }
  split; [exact E|]. unfold item_get_or. now rewrite E.
Qed.

(** Without 'id', 'ref', 'code' and 'slug' the 'ref' is the synthesized
    one. *)
Lemma ref_without_id_fields raw item :
  d2i (VDict raw) = Ok item ->
  forallb (fun k => negb (dict_has raw k)) ["id"; "ref"; "code"; "slug"] = true ->
  item !! "ref" = Some (VStr (synthesized_ref item)).
Proof.
  intros Hitem Hids.
  assert (Hget : forall k, In k ["id"; "ref"; "code"; "slug"] -> dict_get raw k = VNone).
  { intros k Hk. rewrite forallb_forall in Hids. specialize (Hids k Hk).
    apply dict_get_absent. now destruct (dict_has raw k). }
  apply dict_to_item_stages in Hitem as (item1 & _ & ->).
  pose proof (finish_ref raw item1) as E.
  rewrite !Hget in E by (cbn; auto). cbn [py_or truthy] in E.
  unfold item_get in E. unfold finish in *.
  rewrite apply_category_lookup in * by done. unfold set_ref in E at 1 |- * at 1.
  rewrite lookup_insert_eq in *. cbn [default] in E. now rewrite <- E.
Qed.

(** ** The de-duplication loop *)

Lemma sf_eqb_refl f : sf_eqb f f = true.
Proof.
  destruct f as [s|s| |s m e]; simpl; try apply Bool.eqb_reflx; try reflexivity.
  now rewrite Bool.eqb_reflx, Pos.eqb_refl, Z.eqb_refl.
Qed.

Lemma py_eqb_refl v : hashable v = true -> py_eqb v v = true.
Proof.
  destruct v; simpl; intros H; try discriminate; try reflexivity.
  - apply Bool.eqb_reflx.
  - apply Z.eqb_refl.
  - now rewrite sf_eqb_refl.
  - apply String.eqb_refl.
Qed.

Lemma py_eqb_hashable a b : py_eqb a b = true -> hashable a = true.
Proof. destruct a, b; simpl; intros H; try discriminate; reflexivity. Qed.

Lemma key_eqb_refl k : hashable_key k = true -> key_eqb k k = true.
Proof.
  destruct k as [v|a b c]; simpl; intros H; [now apply py_eqb_refl|].
  now rewrite !String.eqb_refl, py_eqb_refl.
Qed.

Lemma key_eqb_hashable j k : key_eqb j k = true -> hashable_key j = true.
Proof.
  destruct j as [v|a b c], k as [w|a' b' c']; simpl; intros H; try discriminate.
  - eauto using py_eqb_hashable.
  - apply andb_true_iff in H as [_ H]. eauto using py_eqb_hashable.
Qed.

Lemma key_in_hashable k seen : key_in k seen = true -> hashable_key k = true.
Proof.
  unfold key_in. intros H. apply existsb_exists in H as (j & _ & H).
  eauto using key_eqb_hashable.
Qed.

Lemma key_in_fresh k seen :
  (forall j, In j seen -> key_eqb k j = false) -> key_in k seen = false.
Proof.
  intros H. unfold key_in. destruct (existsb (key_eqb k) seen) eqn:E; [|reflexivity].
  apply existsb_exists in E as (j & Hj & E). now rewrite (H j Hj) in E.
Qed.

Lemma finish_truthy raw (item : Feature) : item_truthy (finish raw item) = true.
Proof.
  unfold item_truthy, finish, apply_category.
  apply negb_true_iff, bool_decide_eq_false, insert_non_empty.
Qed.

(** [_dict_to_item] never returns a falsy item: the test [if not item] of
    the callers never fires. *)
Lemma dict_to_item_truthy raw item : d2i raw = Ok item -> item_truthy item = true.
Proof.
  destruct raw as [| | | | | |d]; try discriminate.
  intros H. apply dict_to_item_stages in H as (item1 & _ & ->). apply finish_truthy.
Qed.

(** One turn of the loop on a record that normalises. *)
Lemma emit_cons raw item rest seen :
  d2i raw = Ok item ->
  emit DictParser_parse (raw :: rest) seen
  = if negb (hashable_key (dedup_key item))
    then {| yielded := []; raised := Some TypeError |}
    else if key_in (dedup_key item) seen then emit DictParser_parse rest seen
    else yield_first item (emit DictParser_parse rest (dedup_key item :: seen)).
Proof.
  intros H. cbn [emit]. rewrite H, (dict_to_item_truthy _ _ H). reflexivity.
Qed.

Lemma emit_cons_raise raw e rest seen :
  d2i raw = Raise e ->
  emit DictParser_parse (raw :: rest) seen = {| yielded := []; raised := Some e |}.
Proof. intros H. cbn [emit]. now rewrite H. Qed.

(** A record whose key is in [seen], or is the key of an earlier record of
    the list, can be taken out of the list without changing the run. *)
Lemma emit_skips_known_key l1 raw2 b post seen :
  d2i raw2 = Ok b ->
  key_in (dedup_key b) seen = true
  \/ (exists raw1 a, In raw1 l1 /\ d2i raw1 = Ok a /\ dedup_key a = dedup_key b) ->
  emit DictParser_parse (l1 ++ raw2 :: post) seen
  = emit DictParser_parse (l1 ++ post) seen.
Proof.
  intros Hb. revert seen. induction l1 as [|x l1 IH]; intros seen Hk.
  - destruct Hk as [Hk | (raw1 & a & [] & _)].
    cbn [app]. rewrite (emit_cons _ _ _ _ Hb), Hk, (key_in_hashable _ _ Hk). reflexivity.
  - cbn [app]. destruct (d2i x) as [it|e] eqn:Hx.
    2:{ now rewrite !(emit_cons_raise _ _ _ _ Hx). }
    rewrite !(emit_cons _ _ _ _ Hx).
    destruct (hashable_key (dedup_key it)) eqn:Hh; [|reflexivity]. cbn [negb].
    assert (Hcase : key_in (dedup_key b) seen = true
                    \/ dedup_key it = dedup_key b
                    \/ exists raw1 a, In raw1 l1 /\ d2i raw1 = Ok a
                                      /\ dedup_key a = dedup_key b).
    { destruct Hk as [Hk | (raw1 & a & [-> | Hin] & Ha & Hkey)].
      - now left.
      - right; left. rewrite Hx in Ha. inversion Ha; subst. exact Hkey.
      - right; right. exists raw1, a. auto. }
    destruct (key_in (dedup_key it) seen) eqn:Hseen.
    + apply IH. destruct Hcase as [H | [H | H]]; auto. left. now rewrite <- H.
    + f_equal. apply IH. destruct Hcase as [H | [H | H]]; auto.
      * left. unfold key_in in *. cbn [existsb]. now rewrite H, orb_true_r.
      * left. unfold key_in. cbn [existsb]. rewrite <- H.
        now rewrite key_eqb_refl.
Qed.

(** A record whose key equals none seen so far and none of the records
    before it is yielded, if the generator gets past it. *)
Lemma emit_yields_fresh_key pre raw1 a rest seen :
  d2i raw1 = Ok a ->
  (forall j, In j seen -> key_eqb (dedup_key a) j = false) ->
  (forall x it, In x pre -> d2i x = Ok it -> key_eqb (dedup_key a) (dedup_key it) = false) ->
  raised (emit DictParser_parse (pre ++ [raw1]) seen) = None ->
  exists out,
    yielded (emit DictParser_parse (pre ++ raw1 :: rest) seen)
    = yielded (emit DictParser_parse pre seen) ++ a :: out.
Proof.
  intros Ha. revert seen. induction pre as [|x pre IH]; intros seen Hseen Hpre Hrun.
  - cbn [app] in *. rewrite (emit_cons _ _ _ _ Ha) in Hrun. rewrite (emit_cons _ _ _ _ Ha).
    destruct (hashable_key (dedup_key a)); cbn [negb raised] in *; [|discriminate Hrun].
    rewrite (key_in_fresh _ _ Hseen). eexists. reflexivity.
  - cbn [app] in *. destruct (d2i x) as [it|e] eqn:Hx.
    2:{ now rewrite (emit_cons_raise _ _ _ _ Hx) in Hrun. }
    rewrite (emit_cons _ _ _ _ Hx) in Hrun. rewrite !(emit_cons _ _ _ _ Hx).
    destruct (hashable_key (dedup_key it)); cbn [negb raised] in *; [|discriminate Hrun].
    assert (Hpre' : forall y it', In y pre -> d2i y = Ok it' ->
                      key_eqb (dedup_key a) (dedup_key it') = false)
      by (intros y it' Hy; apply Hpre; now right).
    destruct (key_in (dedup_key it) seen).
    + now apply IH.
    + destruct (IH (dedup_key it :: seen)) as [out Hout]; auto.
      { intros j [<- | Hj]; [apply (Hpre x); [now left | exact Hx] | now apply Hseen]. }
      exists out. cbn [yield_first yielded app]. now rewrite Hout.
Qed.

Lemma dedup_key_truthy_ref item :
  truthy (item_get item "ref") = true -> dedup_key item = KVal (item_get item "ref").
Proof. unfold dedup_key. now intros ->. Qed.

Lemma dedup_key_falsy_ref item :
  truthy (item_get item "ref") = false ->
  dedup_key item
  = KTuple (py_str (item_get item "lat")) (py_str (item_get item "lon"))
      (item_get item "name" or' item_get item "branch").
Proof. unfold dedup_key. now intros ->. Qed.

(** C2. Among the records [parse_locator] extracted, take two whose
    normalized items have the same non-empty 'ref'. The later one is
    skipped: the run is the one of the list without it. The first record
    with that 'ref' (no earlier key equals it) is emitted, right after what
    the records before it yield, once the generator gets past it. *)
Theorem duplicate_ref_is_emitted_once
    (pre mid post : list value) (raw1 raw2 : value) (a b : Feature) :
  d2i raw1 = Ok a -> d2i raw2 = Ok b ->
  truthy (item_get a "ref") = true ->
  item_get b "ref" = item_get a "ref" ->
  emit DictParser_parse (pre ++ raw1 :: mid ++ raw2 :: post) []
  = emit DictParser_parse (pre ++ raw1 :: mid ++ post) []
  /\ ((forall x it, In x pre -> d2i x = Ok it ->
         key_eqb (KVal (item_get a "ref")) (dedup_key it) = false) ->
      raised (emit DictParser_parse (pre ++ [raw1]) []) = None ->
      exists out,
        yielded (emit DictParser_parse (pre ++ raw1 :: mid ++ post) [])
        = yielded (emit DictParser_parse pre []) ++ a :: out).
Proof.
  intros Ha Hb Hta Href.
  assert (Hka : dedup_key a = KVal (item_get a "ref")) by now apply dedup_key_truthy_ref.
  assert (Hkb : dedup_key b = KVal (item_get a "ref")).
  { rewrite <- Href. apply dedup_key_truthy_ref. now rewrite Href. }
  split.
  - change (pre ++ raw1 :: mid ++ raw2 :: post)
      with (pre ++ (raw1 :: mid) ++ raw2 :: post).
    change (pre ++ raw1 :: mid ++ post) with (pre ++ (raw1 :: mid) ++ post).
    rewrite !app_assoc. apply (emit_skips_known_key _ _ b); [exact Hb|].
    right. exists raw1, a. split; [|split; [exact Ha | congruence]].
    apply in_or_app. right. now left.
  - intros Hfresh Hrun. rewrite <- Hka in Hfresh.
    apply emit_yields_fresh_key; auto. intros j [].
Qed.

(** C3, as amended. For two raw records whose normalized items both have an
    empty 'ref' (no truthy id-like field, and an empty '{city}-{branch}'
    string) and a hashable name, [parse_locator]'s loop over the two emits
    only the first when the strings of their 'lat', the strings of their
    'lon' and their names (the branch, once the name is cleaned) are equal,
    and both otherwise. *)
Theorem empty_ref_dedup_by_triple (raw1 raw2 : value) (a b : Feature) :
  d2i raw1 = Ok a -> d2i raw2 = Ok b ->
  truthy (item_get a "ref") = false -> truthy (item_get b "ref") = false ->
  hashable (item_get a "name" or' item_get a "branch") = true ->
  hashable (item_get b "name" or' item_get b "branch") = true ->
  emit DictParser_parse [raw1; raw2] []
  = {| yielded :=
         if String.eqb (py_str (item_get b "lat")) (py_str (item_get a "lat"))
            && String.eqb (py_str (item_get b "lon")) (py_str (item_get a "lon"))
            && py_eqb (item_get b "name" or' item_get b "branch")
                 (item_get a "name" or' item_get a "branch")
         then [a] else [a; b];
       raised := None |}.
Proof.
  intros Ha Hb Hra Hrb Hha Hhb.
  rewrite (emit_cons _ _ _ _ Ha), (dedup_key_falsy_ref _ Hra).
  cbn [hashable_key key_in existsb]. rewrite Hha. cbn [negb].
  rewrite (emit_cons _ _ _ _ Hb), (dedup_key_falsy_ref _ Hrb).
  cbn [hashable_key key_in existsb key_eqb]. rewrite Hhb. cbn [negb].
  rewrite orb_false_r.
  destruct (_ && _ && _); reflexivity.
Qed.

Lemma unparsable_float v : unparsable v -> py_float (decimal_point v) = None.
Proof. intros (s & -> & H). exact H. Qed.

Lemma set_geo_unparsable_lon lat lon (item : Feature) :
  py_float lat = None \/ py_float lon = None ->
  set_geo lat lon item !! "lon" = item !! "lon".
Proof.
  intros H. unfold set_geo.
  destruct (truthy lat && truthy lon); [|reflexivity].
  destruct (py_float lat) as [x|]; [|reflexivity].
  destruct (py_float lon) as [y|]; [destruct H; discriminate|].
  now rewrite lookup_insert_ne.
Qed.

Lemma set_geo_unparsable_lat lat lon (item : Feature) :
  py_float lat = None -> set_geo lat lon item = item.
Proof. intros H. unfold set_geo. rewrite H. now destruct (_ && _). Qed.

(** C7, as amended. For every raw record whose latitude or longitude is a
    string that [float] cannot read, the failure is swallowed but the record
    is kept: provided its display name is a [str] or falsy, [_dict_to_item]
    returns the item, with 'lon' (and 'lat' too, when the latitude is the
    bad one) as [DictParser.parse] left it, and [parse_locator]'s loop emits
    it. *)
Theorem unparsable_coordinate_is_kept (raw : pydict) :
  unparsable (raw_lat raw) \/ unparsable (raw_lon raw) ->
  name_accepted (display_name (DictParser_parse raw) raw) = true ->
  exists item, d2i (VDict raw) = Ok item
    /\ item !! "lon" = DictParser_parse raw !! "lon"
    /\ (unparsable (raw_lat raw) -> item !! "lat" = DictParser_parse raw !! "lat")
    /\ (hashable_key (dedup_key item) = true ->
        emit DictParser_parse [VDict raw] [] = {| yielded := [item]; raised := None |}).
Proof.
  intros Hbad Hname.
  destruct (dict_to_item_returns raw Hname) as (item1 & H1 & Hitem).
  assert (Hf : py_float (decimal_point (raw_lat raw)) = None
               \/ py_float (decimal_point (raw_lon raw)) = None)
    by (destruct Hbad; [left | right]; now apply unparsable_float).
  exists (finish raw item1). split; [exact Hitem|]. split_ands.
  - rewrite finish_lookup_geo, set_geo_unparsable_lon by auto.
    rewrite set_contact_lookup, set_address_lookup by done.
    apply (set_branch_lookup _ _ _ _ H1); done.
  - intros Hlat.
    rewrite finish_lookup_geo, set_geo_unparsable_lat by (auto using unparsable_float).
    rewrite set_contact_lookup, set_address_lookup by done.
    apply (set_branch_lookup _ _ _ _ H1); done.
  - intros Hh. rewrite (emit_cons _ _ _ _ Hitem), Hh. reflexivity.
Qed.

End DictToItem.

(** ** The blob walker *)

Lemma value_ind' (P : value -> Prop) :
  P VNone -> (forall b, P (VBool b)) -> (forall z, P (VInt z)) ->
  (forall f, P (VFloat f)) -> (forall s, P (VStr s)) ->
  (forall l, Forall P l -> P (VList l)) ->
  (forall d, Forall (fun kv => P (snd kv)) d -> P (VDict d)) ->
  forall v, P v.
Proof.
  intros HN HB HI HF HS HL HD. fix IH 1.
  intros [ |b|z|f|s|l|d];
    [exact HN | apply HB | apply HI | apply HF | apply HS | apply HL | apply HD].
  - induction l as [|x l IHl]; constructor; [apply IH | exact IHl].
  - induction d as [|kv d IHd]; constructor; [apply IH | exact IHd].
Qed.

(** [walk] adds to [found], node by node in depth-first order, what each
    node contributes. *)
Lemma walk_nodes node :
  forall found, walk node found = found ++ flat_map found_here (nodes node).
Proof.
  revert node.
  apply (value_ind' (fun node =>
    forall found, walk node found = found ++ flat_map found_here (nodes node)));
    try (intros; cbn [walk nodes flat_map found_here app]; reflexivity).
  - intros l IH found. cbn [walk nodes flat_map]. rewrite app_assoc.
    generalize (found ++ found_here (VList l)). clear found.
    induction IH as [|x l Hx _ IHl]; intros found; [now rewrite app_nil_r|].
    rewrite Hx, IHl, flat_map_app. now rewrite app_assoc.
  - intros d IH found. cbn [walk nodes flat_map]. rewrite app_assoc.
    generalize (found ++ found_here (VDict d)). clear found.
    induction IH as [|kv d Hx _ IHd]; intros found; [now rewrite app_nil_r|].
    rewrite Hx, IHd, flat_map_app. now rewrite app_assoc.
Qed.

Lemma looks_like_location_iff sample :
  looks_like_location sample = true <-> matches_a_template sample.
Proof.
  unfold looks_like_location, matches_a_template. rewrite existsb_exists.
  split; intros (template & Hin & H); exists template; (split; [exact Hin|]).
  - intros k Hk. rewrite forallb_forall in H. specialize (H k Hk).
    unfold str_in in H. apply existsb_exists in H as (k' & Hk' & E).
    apply String.eqb_eq in E as <-.
    apply in_map_iff in Hk' as (kv & <- & Hkv).
    exists (fst kv). split; [now apply in_map | reflexivity].
  - apply forallb_forall. intros k Hk. destruct (H k Hk) as (k' & Hk' & <-).
    unfold str_in. apply existsb_exists. exists (str_lower k').
    split; [|apply String.eqb_refl].
    apply in_map_iff in Hk' as (kv & <- & Hkv).
    apply in_map_iff. now exists kv.
Qed.

(** C9. For every nested structure of dictionaries and lists,
    [_extract_locations_from_blob] returns the concatenation, in depth-first
    order, of the elements of every array in it (the structure itself
    included) whose first element is a dictionary whose lowercased key set
    contains one of the four templates; any other node contributes
    nothing. *)
Theorem extracted_locations_are_template_arrays (blob : value) :
  _extract_locations_from_blob blob = flat_map found_here (nodes blob)
  /\ (forall sample rest,
        matches_a_template sample ->
        found_here (VList (VDict sample :: rest)) = VDict sample :: rest)
  /\ (forall node,
        (forall sample rest,
           node = VList (VDict sample :: rest) -> ~ matches_a_template sample) ->
        found_here node = []).
Proof.
  split_ands.
  - unfold _extract_locations_from_blob. now rewrite walk_nodes.
  - intros sample rest H. apply (proj2 (looks_like_location_iff sample)) in H.
    unfold found_here. now rewrite H.
  - intros node H. destruct node as [ | | | | |[|[ | | | | | |sample] rest]|]; try reflexivity.
    unfold found_here. destruct (looks_like_location sample) eqn:E; [|reflexivity].
    apply (proj1 (looks_like_location_iff sample)) in E.
    now destruct (H sample rest eq_refl).
Qed.

(** ** Payload extraction *)

Section Extraction.

Variable DictParser_parse : pydict -> Feature.
Variable json_loads : string -> result value.

Lemma try_payload_total locations text :
  try_payload json_loads locations text
  = Ok (locations ++ contribution json_loads (Payload, text)).
Proof.
  unfold try_payload, contribution. cbn [fst snd].
  destruct (json_loads _); cbn; [reflexivity | now rewrite app_nil_r].
Qed.

Lemma try_array_total locations text :
  try_array json_loads locations text
  = Ok (locations ++ contribution json_loads (BareArray, text)).
Proof.
  unfold try_array, contribution. cbn [fst snd].
  destruct (json_loads _) as [arr|]; cbn; [|now rewrite app_nil_r].
  destruct (looks_like_agencies arr); [reflexivity | now rewrite app_nil_r].
Qed.

(** A loop whose body always appends runs to its end and appends it all. *)
Lemma for_each_appends {A B : Type} (body : list B -> A -> result (list B))
    (g : A -> list B) :
  (forall st x, body st x = Ok (st ++ g x)) ->
  forall xs st, for_each body xs st = Ok (st ++ flat_map g xs).
Proof.
  intros Hbody xs. induction xs as [|x xs IH]; intros st; cbn [for_each flat_map].
  - now rewrite app_nil_r.
  - rewrite Hbody. cbn. now rewrite IH, app_assoc.
Qed.

Lemma flat_map_map {A B C : Type} (f : B -> list C) (g : A -> B) (l : list A) :
  flat_map f (map g l) = flat_map (fun x => f (g x)) l.
Proof. induction l as [|x l IH]; cbn; [reflexivity | now rewrite IH]. Qed.

Lemma flat_map_flat_map {A B C : Type} (f : B -> list C) (g : A -> list B) (l : list A) :
  flat_map f (flat_map g l) = flat_map (fun x => flat_map f (g x)) l.
Proof.
  induction l as [|x l IH]; cbn; [reflexivity | now rewrite flat_map_app, IH].
Qed.

Lemma scan_script_total locations s :
  scan_script json_loads locations s
  = Ok (locations ++ flat_map (contribution json_loads) (captures s)).
Proof.
  unfold scan_script, captures.
  rewrite (for_each_appends _
    (fun pat => flat_map (fun text => contribution json_loads (Payload, text))
                  (finditer_group1 pat s))).
  2:{ intros st pat. apply for_each_appends, try_payload_total. }
  cbv beta iota delta [mbind result_bind]. rewrite (for_each_appends _ (fun text => contribution json_loads (BareArray, text)))
    by apply try_array_total.
  rewrite flat_map_app, flat_map_flat_map, flat_map_map, app_assoc.
  do 3 f_equal. apply flat_map_ext. intros pat. now rewrite flat_map_map.
Qed.

(** C6. For every response, a captured payload that does not parse as JSON
    raises nothing and adds nothing: the extraction loop of [parse_locator]
    always runs to its end, and collects what the captured payloads of all
    script blocks contribute, in order, a payload that fails to parse
    contributing no record; [parse_locator] then goes on to its
    de-duplication loop over these records. *)
Theorem malformed_payload_is_skipped (r : response) :
  collect_locations json_loads (json_scripts r ++ all_scripts r)
  = Ok (flat_map (contribution json_loads)
          (flat_map captures (json_scripts r ++ all_scripts r)))
  /\ (forall kind text e,
        json_loads (_json_sanitize text) = Raise e ->
        contribution json_loads (kind, text) = [])
  /\ parse_locator DictParser_parse json_loads r
     = emit DictParser_parse
         (flat_map (contribution json_loads)
            (flat_map captures (json_scripts r ++ all_scripts r))) [].
Proof.
  assert (H : forall scripts,
    collect_locations json_loads scripts
    = Ok (flat_map (contribution json_loads) (flat_map captures scripts))).
  { intros scripts. unfold collect_locations.
    rewrite (for_each_appends _ (fun s => flat_map (contribution json_loads) (captures s)))
      by apply scan_script_total.
    now rewrite flat_map_flat_map. }
  split_ands.
  - apply H.
  - intros kind text e He. unfold contribution. cbn [snd]. now rewrite He.
  - unfold parse_locator. now rewrite H.
Qed.

End Extraction.

(** ** The claims on sample records *)

Lemma returns_item r : returns r = true -> r = Ok (item_of r).
Proof. destruct r; [reflexivity | discriminate]. Qed.

(** C1 on the Casablanca record: "33,5731" and "-7,5898" become floats. *)
Lemma comma_decimal_coordinates_witness :
  raw_lat casablanca = VStr "33,5731" /\ raw_lon casablanca = VStr "-7,5898"
  /\ read_comma_decimal "33,5731" = Some (S754_finite false 4724993770302262 (-47))
  /\ read_comma_decimal "-7,5898" = Some (S754_finite true 8545355112954148 (-50))
  /\ normalize (VDict casablanca) = Ok (item_of (normalize (VDict casablanca)))
  /\ item_of (normalize (VDict casablanca)) !! "lat"
     = Some (VFloat (S754_finite false 4724993770302262 (-47)))
  /\ item_of (normalize (VDict casablanca)) !! "lon"
     = Some (VFloat (S754_finite true 8545355112954148 (-50))).
Proof.
  split; [reflexivity|]. split; [reflexivity|].
  split; [run|]. split; [run|].
  split; [apply returns_item; run|].
  refine (proj2 (comma_decimal_coordinates DictParser_own_names casablanca
                   "33,5731" "-7,5898" _ _ _ _ _ _) _ _);
    [reflexivity | reflexivity | run | run | apply returns_item; run].
Defined.

(** C2 on five records, the fourth repeating the id of the second. *)
Lemma duplicate_ref_witness :
  normalize (VDict rabat_17) = Ok (item_of (normalize (VDict rabat_17)))
  /\ normalize (VDict rabat_17_again) = Ok (item_of (normalize (VDict rabat_17_again)))
  /\ item_get (item_of (normalize (VDict rabat_17))) "ref" = VStr "MA-17"
  /\ item_get (item_of (normalize (VDict rabat_17_again))) "ref" = VStr "MA-17"
  /\ emit DictParser_own_names
       ([VDict fes_21] ++ VDict rabat_17 :: [VDict casablanca]
        ++ VDict rabat_17_again :: [VDict on_equator]) []
     = emit DictParser_own_names
         ([VDict fes_21] ++ VDict rabat_17 :: [VDict casablanca] ++ [VDict on_equator]) []
  /\ exists out,
       yielded (emit DictParser_own_names
                  ([VDict fes_21] ++ VDict rabat_17 :: [VDict casablanca]
                   ++ [VDict on_equator]) [])
       = yielded (emit DictParser_own_names [VDict fes_21] [])
         ++ item_of (normalize (VDict rabat_17)) :: out.
Proof.
  assert (Ha : normalize (VDict rabat_17) = Ok (item_of (normalize (VDict rabat_17))))
    by (apply returns_item; run).
  assert (Hb : normalize (VDict rabat_17_again)
               = Ok (item_of (normalize (VDict rabat_17_again))))
    by (apply returns_item; run).
  assert (Hra : item_get (item_of (normalize (VDict rabat_17))) "ref" = VStr "MA-17") by run.
  assert (Hrb : item_get (item_of (normalize (VDict rabat_17_again))) "ref" = VStr "MA-17")
    by run.
  destruct (duplicate_ref_is_emitted_once DictParser_own_names
              [VDict fes_21] [VDict casablanca] [VDict on_equator]
              (VDict rabat_17) (VDict rabat_17_again) _ _ Ha Hb) as [Hskip Hfirst].
  { now rewrite Hra. }
  { now rewrite Hra, Hrb. }
  split_ands; try assumption.
  apply Hfirst; [|run].
  intros x it [<- | []] Hx.
  assert (Hf : normalize (VDict fes_21) = Ok (item_of (normalize (VDict fes_21))))
    by (apply returns_item; run).
  assert (it = item_of (normalize (VDict fes_21))) as -> by congruence. run.
Defined.

(** Counterexample to C3 as stated: two records without id-like fields whose
    coordinates differ; both get the synthesized 'ref' "Tanger-Principale"
    and only the first is emitted. *)
Lemma same_name_elsewhere_is_dropped :
  forallb (fun k => negb (dict_has tanger_port k) && negb (dict_has tanger_medina k))
    ["id"; "ref"; "code"; "slug"] = true
  /\ normalize (VDict tanger_port) = Ok (item_of (normalize (VDict tanger_port)))
  /\ normalize (VDict tanger_medina) = Ok (item_of (normalize (VDict tanger_medina)))
  /\ py_str (item_get (item_of (normalize (VDict tanger_port))) "lat") = "35.76"
  /\ py_str (item_get (item_of (normalize (VDict tanger_medina))) "lat") = "35.74"
  /\ item_get (item_of (normalize (VDict tanger_port))) "ref" = VStr "Tanger-Principale"
  /\ item_get (item_of (normalize (VDict tanger_medina))) "ref" = VStr "Tanger-Principale"
  /\ emit DictParser_own_names [VDict tanger_port; VDict tanger_medina] []
     = {| yielded := [item_of (normalize (VDict tanger_port))]; raised := None |}.
Proof.
  assert (Ha : normalize (VDict tanger_port) = Ok (item_of (normalize (VDict tanger_port))))
    by (apply returns_item; run).
  assert (Hb : normalize (VDict tanger_medina)
               = Ok (item_of (normalize (VDict tanger_medina))))
    by (apply returns_item; run).
  split; [run|]. split; [exact Ha|]. split; [exact Hb|]. do 4 (split; [run|]).
  rewrite (emit_cons _ _ _ _ _ Ha).
  replace (hashable_key (dedup_key (item_of (normalize (VDict tanger_port)))))
    with true by run.
  cbn [negb key_in existsb]. rewrite (emit_cons _ _ _ _ _ Hb).
  replace (hashable_key (dedup_key (item_of (normalize (VDict tanger_medina)))))
    with true by run.
  replace (key_in (dedup_key (item_of (normalize (VDict tanger_medina))))
             [dedup_key (item_of (normalize (VDict tanger_port)))])
    with true by run.
  reflexivity.
Qed.

(** C3 as amended, on two nameless records with an empty city: their 'ref'
    is empty, their longitudes differ, and both are emitted. *)
Lemma empty_ref_dedup_witness :
  normalize (VDict nameless_east) = Ok (item_of (normalize (VDict nameless_east)))
  /\ normalize (VDict nameless_west) = Ok (item_of (normalize (VDict nameless_west)))
  /\ item_get (item_of (normalize (VDict nameless_east))) "ref" = VStr ""
  /\ item_get (item_of (normalize (VDict nameless_west))) "ref" = VStr ""
  /\ py_str (item_get (item_of (normalize (VDict nameless_east))) "lon") = "-1.9"
  /\ py_str (item_get (item_of (normalize (VDict nameless_west))) "lon") = "-6.8"
  /\ emit DictParser_own_names [VDict nameless_east; VDict nameless_west] []
     = {| yielded := [item_of (normalize (VDict nameless_east));
                      item_of (normalize (VDict nameless_west))];
          raised := None |}.
Proof.
  assert (Ha : normalize (VDict nameless_east)
               = Ok (item_of (normalize (VDict nameless_east))))
    by (apply returns_item; run).
  assert (Hb : normalize (VDict nameless_west)
               = Ok (item_of (normalize (VDict nameless_west))))
    by (apply returns_item; run).
  split; [exact Ha|]. split; [exact Hb|]. do 4 (split; [run|]).
  rewrite (empty_ref_dedup_by_triple DictParser_own_names _ _ _ _ Ha Hb) by run.
  replace (String.eqb (py_str (item_get (item_of (normalize (VDict nameless_west))) "lon"))
             (py_str (item_get (item_of (normalize (VDict nameless_east))) "lon")))
    with false by run.
  now rewrite andb_false_r.
Defined.

(** C4 at its failing input: a record with a name and no city gets the
    'ref' "None-Casablanca", not "Casablanca". *)
Lemma absent_city_is_formatted_as_None :
  normalize (VDict casablanca_no_city) = Ok (item_of (normalize (VDict casablanca_no_city)))
  /\ forallb (fun k => negb (dict_has casablanca_no_city k))
       ["id"; "ref"; "code"; "slug"; "city"; "ville"] = true
  /\ item_of (normalize (VDict casablanca_no_city)) !! "city" = Some VNone
  /\ item_of (normalize (VDict casablanca_no_city)) !! "branch" = Some (VStr "Casablanca")
  /\ item_of (normalize (VDict casablanca_no_city)) !! "ref" = Some (VStr "None-Casablanca").
Proof. split; [apply returns_item; run|]. split_ands; run. Qed.

(** Counterexample to C5 as stated: a record with an empty 'ville' gets an
    empty 'ref'. *)
Lemma empty_city_gives_empty_ref :
  normalize (VDict empty_city) = Ok (item_of (normalize (VDict empty_city)))
  /\ item_of (normalize (VDict empty_city)) !! "ref" = Some (VStr "")
  /\ truthy (item_get (item_of (normalize (VDict empty_city))) "ref") = false.
Proof. split; [apply returns_item; run|]. split_ands; run. Qed.

(** C5 as amended, on a record with an id. *)
Lemma ref_after_fallback_chain_witness :
  normalize (VDict rabat_17) = Ok (item_of (normalize (VDict rabat_17)))
  /\ item_get (item_of (normalize (VDict rabat_17))) "ref"
     = dict_get rabat_17 "id" or' dict_get rabat_17 "ref" or' dict_get rabat_17 "code"
       or' dict_get rabat_17 "slug"
       or' VStr (synthesized_ref (item_of (normalize (VDict rabat_17))))
  /\ truthy (item_get (item_of (normalize (VDict rabat_17))) "ref")
     = truthy (dict_get rabat_17 "id") || truthy (dict_get rabat_17 "ref")
       || truthy (dict_get rabat_17 "code") || truthy (dict_get rabat_17 "slug")
       || negb (String.eqb (synthesized_ref (item_of (normalize (VDict rabat_17)))) "").
Proof.
  assert (Ha : normalize (VDict rabat_17) = Ok (item_of (normalize (VDict rabat_17))))
    by (apply returns_item; run).
  split; [exact Ha|].
  exact (ref_after_fallback_chain DictParser_own_names rabat_17 _ Ha).
Defined.

(** Counterexample to C7 as stated: the record with latitude "n/a" is
    normalised and emitted. *)
Lemma unparsable_latitude_is_emitted :
  unparsable (raw_lat bad_latitude)
  /\ normalize (VDict bad_latitude) = Ok (item_of (normalize (VDict bad_latitude)))
  /\ emit DictParser_own_names [VDict bad_latitude] []
     = {| yielded := [item_of (normalize (VDict bad_latitude))]; raised := None |}.
Proof.
  assert (Ha : normalize (VDict bad_latitude) = Ok (item_of (normalize (VDict bad_latitude))))
    by (apply returns_item; run).
  split; [exists "n/a"; split; run|]. split; [exact Ha|].
  rewrite (emit_cons _ _ _ _ _ Ha).
  replace (hashable_key (dedup_key (item_of (normalize (VDict bad_latitude)))))
    with true by run.
  reflexivity.
Qed.

(** C7 as amended, on the same record. *)
Lemma unparsable_coordinate_is_kept_witness :
  (unparsable (raw_lat bad_latitude) \/ unparsable (raw_lon bad_latitude))
  /\ name_accepted (display_name (DictParser_own_names bad_latitude) bad_latitude) = true
  /\ exists item, normalize (VDict bad_latitude) = Ok item
       /\ item !! "lon" = DictParser_own_names bad_latitude !! "lon"
       /\ (unparsable (raw_lat bad_latitude) ->
           item !! "lat" = DictParser_own_names bad_latitude !! "lat")
       /\ (hashable_key (dedup_key item) = true ->
           emit DictParser_own_names [VDict bad_latitude] []
           = {| yielded := [item]; raised := None |}).
Proof.
  assert (Hbad : unparsable (raw_lat bad_latitude) \/ unparsable (raw_lon bad_latitude))
    by (left; exists "n/a"; split; run).
  assert (Hname : name_accepted (display_name (DictParser_own_names bad_latitude) bad_latitude)
                  = true) by run.
  split; [exact Hbad|]. split; [exact Hname|].
  exact (unparsable_coordinate_is_kept DictParser_own_names bad_latitude Hbad Hname).
Defined.

(** C8 on the Casablanca record. *)
Lemma branch_of_saham_agence_casablanca_witness :
  display_name (DictParser_own_names casablanca) casablanca
  = VStr "Saham Bank - Agence Casablanca"
  /\ exists item, normalize (VDict casablanca) = Ok item
       /\ item !! "branch" = Some (VStr "Casablanca")
       /\ item !! "name" = None.
Proof.
  assert (H : display_name (DictParser_own_names casablanca) casablanca
              = VStr "Saham Bank - Agence Casablanca") by run.
  split; [exact H|].
  exact (branch_of_saham_agence_casablanca DictParser_own_names casablanca H).
Defined.

(** C10 on a record whose latitude is the number 0. *)
Lemma falsy_coordinate_is_absent_witness :
  dict_get on_equator "lat" = VInt 0 /\ truthy (raw_lat on_equator) = false
  /\ normalize (VDict on_equator) = Ok (item_of (normalize (VDict on_equator)))
  /\ item_of (normalize (VDict on_equator)) !! "lat" = DictParser_own_names on_equator !! "lat"
  /\ item_of (normalize (VDict on_equator)) !! "lon" = DictParser_own_names on_equator !! "lon".
Proof.
  assert (Ha : normalize (VDict on_equator) = Ok (item_of (normalize (VDict on_equator))))
    by (apply returns_item; run).
  split; [run|]. split; [run|]. split; [exact Ha|].
  refine (proj2 (proj2 (falsy_coordinate_is_absent DictParser_own_names on_equator _)) _ Ha).
  left; run.
Defined.

(** C9 on a payload: the list of agencies is found two levels down, the
    list of tags is not one. *)
Example extract_nested_payload :
  _extract_locations_from_blob nested_payload
  = [VDict [("Nom", VStr "Agence Oujda"); ("Latitude", VStr "34,68");
            ("Longitude", VStr "-1,91")];
     VDict [("nom", VStr "Agence Nador")]].
Proof. run. Qed.

(** * Further properties *)

(** ** Strings *)

Lemma str_app_cons c a b : String c a +:+ b = String c (a +:+ b).
Proof. reflexivity. Qed.

Lemma str_last_app a d : str_last (a +:+ String d "") = Some d.
Proof.
  induction a as [|c a IH]; [reflexivity|].
  rewrite str_app_cons. cbn [str_last]. rewrite IH. destruct a; reflexivity.
Qed.

Lemma str_last_map f s : str_last (str_map f s) = option_map f (str_last s).
Proof.
  induction s as [|c s IH]; [reflexivity|].
  cbn [str_map str_last]. destruct s as [|c' s]; [reflexivity|]. exact IH.
Qed.

Lemma str_last_cons c s d : str_last s = Some d -> str_last (String c s) = Some d.
Proof. destruct s; [discriminate|]. intros H. exact H. Qed.

Lemma str_length_app a b : String.length (a +:+ b) = String.length a + String.length b.
Proof.
  induction a as [|c a IH]; [reflexivity|].
  rewrite str_app_cons. cbn [String.length]. now rewrite IH.
Qed.

Lemma str_length_map f s : String.length (str_map f s) = String.length s.
Proof. induction s as [|c s IH]; [reflexivity|]. cbn. now rewrite IH. Qed.

Lemma str_forall_app p a b : str_forall p (a +:+ b) = str_forall p a && str_forall p b.
Proof.
  induction a as [|c a IH]; [reflexivity|].
  rewrite str_app_cons. cbn [str_forall]. now rewrite IH, andb_assoc.
Qed.

Lemma str_forall_impl (p q : ascii -> bool) s :
  (forall c, p c = true -> q c = true) -> str_forall p s = true -> str_forall q s = true.
Proof.
  intros Hpq. induction s as [|c s IH]; [reflexivity|]. cbn [str_forall]. intros H.
  apply andb_true_iff in H as [Hc Hs]. now rewrite (Hpq c Hc), IH.
Qed.

Lemma str_drop_length n s : String.length (str_drop n s) = String.length s - n.
Proof.
  revert s. induction n as [|n IH]; intros s; [cbn; lia|].
  destruct s as [|c s]; [reflexivity|]. cbn. apply IH.
Qed.

Lemma str_drop_drop a b s : str_drop b (str_drop a s) = str_drop (a + b) s.
Proof.
  revert s. induction a as [|a IH]; intros s; [reflexivity|].
  destruct s as [|c s]; [now destruct b|]. cbn. apply IH.
Qed.

Lemma str_drop_next pos full c s :
  str_drop pos full = String c s -> str_drop (S pos) full = s.
Proof.
  intros H. rewrite <- (Nat.add_1_r pos), <- str_drop_drop, H. reflexivity.
Qed.

Lemma str_take_drop n s : n <= String.length s -> s = str_take n s +:+ str_drop n s.
Proof.
  revert s. induction n as [|n IH]; intros s H; [reflexivity|].
  destruct s as [|c s]; [cbn in H; lia|]. cbn [str_take str_drop]. rewrite str_app_cons.
  f_equal. apply IH. cbn in H. lia.
Qed.

Lemma str_take_length n s : n <= String.length s -> String.length (str_take n s) = n.
Proof.
  revert s. induction n as [|n IH]; intros s H; [reflexivity|].
  destruct s as [|c s]; [cbn in H; lia|]. cbn. f_equal. apply IH. cbn in H. lia.
Qed.

Lemma substring_drop n len s : substring n len s = substring 0 len (str_drop n s).
Proof.
  revert s. induction n as [|n IH]; intros s; [reflexivity|].
  destruct s as [|c s]; [now destruct len|]. cbn [substring str_drop]. apply IH.
Qed.

Lemma substring_prefix u rest : substring 0 (String.length u) (u +:+ rest) = u.
Proof.
  induction u as [|c u IH]; [now destruct rest|].
  rewrite str_app_cons. cbn [String.length substring]. now rewrite IH.
Qed.

Lemma mem_char_drop ch n s : mem_char ch (str_drop n s) = true -> mem_char ch s = true.
Proof.
  revert s. induction n as [|n IH]; intros s H; [exact H|].
  destruct s as [|c s]; [exact H|]. cbn [str_drop] in H. cbn [mem_char].
  rewrite (IH _ H). apply orb_true_r.
Qed.

(** *** Stripping *)

Lemma lstrip_spaces p ws s :
  str_forall p ws = true -> lstrip_by p (ws +:+ s) = lstrip_by p s.
Proof.
  induction ws as [|c ws IH]; [reflexivity|]. cbn [str_forall]. intros H.
  apply andb_true_iff in H as [Hc Hws]. rewrite str_app_cons. cbn [lstrip_by].
  rewrite Hc. now apply IH.
Qed.

Lemma rstrip_all p ws : str_forall p ws = true -> rstrip_by p ws = "".
Proof.
  induction ws as [|c ws IH]; [reflexivity|]. cbn [str_forall rstrip_by]. intros H.
  apply andb_true_iff in H as [Hc Hws]. now rewrite (IH Hws), Hc.
Qed.

Lemma rstrip_spaces p s ws :
  str_forall p ws = true -> rstrip_by p (s +:+ ws) = rstrip_by p s.
Proof.
  intros H. induction s as [|c s IH]; [now apply rstrip_all|].
  rewrite str_app_cons. cbn [rstrip_by]. now rewrite IH.
Qed.

Lemma rstrip_none p s :
  str_forall (fun c => negb (p c)) s = true -> rstrip_by p s = s.
Proof.
  induction s as [|c s IH]; [reflexivity|]. cbn [str_forall rstrip_by]. intros H.
  apply andb_true_iff in H as [Hc Hs]. rewrite (IH Hs).
  destruct s; [|reflexivity]. apply negb_true_iff in Hc. now rewrite Hc.
Qed.

Lemma rstrip_last p a d : p d = false -> rstrip_by p (a +:+ String d "") = a +:+ String d "".
Proof.
  intros H. apply rstrip_keeps; [discriminate|]. cbn. now rewrite H.
Qed.

Lemma rstrip_empty p s : rstrip_by p s = "" -> str_forall p s = true.
Proof.
  induction s as [|c s IH]; [reflexivity|]. cbn [rstrip_by str_forall].
  destruct (rstrip_by p s) eqn:E; [|discriminate].
  destruct (p c); [|discriminate]. intros _. now apply IH.
Qed.

Lemma lstrip_all p s : str_forall p (lstrip_by p s) = true -> str_forall p s = true.
Proof.
  induction s as [|c s IH]; [reflexivity|]. cbn [lstrip_by].
  destruct (p c) eqn:E; [|tauto]. intros H. cbn [str_forall]. now rewrite E, IH.
Qed.

Lemma strip_empty p s : strip_by p s = "" -> str_forall p s = true.
Proof. intros H. now apply lstrip_all, rstrip_empty. Qed.

Lemma lstrip_first p s c t : lstrip_by p s = String c t -> p c = false.
Proof.
  induction s as [|x s IH]; [discriminate|]. cbn [lstrip_by].
  destruct (p x) eqn:E; [exact IH|]. intros H. inversion H; subst. exact E.
Qed.

Lemma rstrip_first p s c t : rstrip_by p s = String c t -> exists t', s = String c t'.
Proof.
  destruct s as [|x s]; [discriminate|]. cbn [rstrip_by].
  destruct (rstrip_by p s); [destruct (p x)|]; intros H; inversion H; eauto.
Qed.

Lemma rstrip_last_kept p s d : str_last (rstrip_by p s) = Some d -> p d = false.
Proof.
  induction s as [|x s IH]; [discriminate|]. cbn [rstrip_by].
  destruct (rstrip_by p s) as [|c' t] eqn:E.
  - destruct (p x) eqn:Ex; [discriminate|]. intros H. inversion H; subst. exact Ex.
  - intros H. apply IH. exact H.
Qed.

(** A stripped text neither starts nor ends with a character of the kind
    stripped. *)
Lemma strip_ends p s :
  (forall c t, strip_by p s = String c t -> p c = false)
  /\ (forall d, str_last (strip_by p s) = Some d -> p d = false).
Proof.
  unfold strip_by. split.
  - intros c t H. apply rstrip_first in H as [t' H]. now apply lstrip_first in H.
  - intros d. apply rstrip_last_kept.
Qed.

(** Stripping and substituting by nothing only delete characters. *)
Lemma lstrip_deletes p s : sublist (chars (lstrip_by p s)) (chars s).
Proof.
  induction s as [|c s IH]; [constructor|]. cbn [lstrip_by].
  destruct (p c); [apply sublist_cons, IH | reflexivity].
Qed.

Lemma rstrip_deletes p s : sublist (chars (rstrip_by p s)) (chars s).
Proof.
  induction s as [|c s IH]; [constructor|]. cbn [rstrip_by list_ascii_of_string].
  destruct (rstrip_by p s) as [|c' t].
  - destruct (p c); [apply sublist_nil_l | apply sublist_skip, sublist_nil_l].
  - apply sublist_skip, IH.
Qed.

Lemma strip_deletes p s : sublist (chars (strip_by p s)) (chars s).
Proof. unfold strip_by. etrans; [apply rstrip_deletes | apply lstrip_deletes]. Qed.

Lemma sub_from_deletes r s : forall prev pos skip,
  sublist (chars (sub_from r prev s pos skip)) (chars s).
Proof.
  induction s as [|c s IH]; intros prev pos skip; [constructor|].
  cbn [sub_from list_ascii_of_string]. destruct skip as [|n]; [|apply sublist_cons, IH].
  destruct (rmatch r prev (String c s) pos 0 0) as [m|].
  - destruct (m_end m =? pos)%nat; [apply sublist_skip | apply sublist_cons]; apply IH.
  - apply sublist_skip, IH.
Qed.

(** *** Lowercase letters *)

Lemma lower_nl c : lower_char c = newline -> c = newline.
Proof. each_char c. Qed.

Lemma lower_newline c : Ascii.eqb (lower_char c) newline = Ascii.eqb c newline.
Proof. each_char c. Qed.

Lemma lower_gt c : lower_char c = ">"%char -> c = ">"%char.
Proof. each_char c. Qed.

Lemma lower_lt c : lower_char c = "<"%char -> c = "<"%char.
Proof. each_char c. Qed.

Lemma str_lower_length_eq s t :
  String.eqb (str_lower s) t = true -> String.length s = String.length t.
Proof.
  intros H. apply String.eqb_eq in H. rewrite <- H. unfold str_lower.
  now rewrite str_length_map.
Qed.

(** ** The closing tag of [_json_sanitize] *)

(** The pattern [</script>$] matches where the rest of the text is the tag,
    in any case, or the tag and one newline. *)
Lemma rmatch_script_close prev s pos :
  rmatch script_close prev s pos 0 0
  = if String.eqb (str_lower s) script_close_text
       || String.eqb (str_lower s) script_close_line
    then Some {| m_end := pos + 9; g_start := 0; g_end := 0 |}
    else None.
Proof.
  unfold script_close, script_close_text, script_close_line.
  cbn [litsi app rmatch liti].
  do 9 (destruct s as [|?c s]; [reflexivity|];
    cbn [str_lower str_map String.eqb];
    match goal with |- context [Ascii.eqb (lower_char ?c) ?d] =>
      change (lower_char d) with d;
      destruct (Ascii.eqb (lower_char c) d) eqn:?; [|reflexivity] end).
  destruct s as [|c9 s]; [cbn; f_equal; f_equal; lia|].
  cbn [str_lower str_map String.eqb orb]. rewrite lower_newline.
  destruct s; cbn [str_map String.eqb].
  - destruct (Ascii.eqb c9 newline); [f_equal; f_equal; lia | reflexivity].
  - destruct (Ascii.eqb c9 newline); reflexivity.
Qed.

Lemma sub_from_skip_all r s : forall prev pos n,
  String.length s <= n -> sub_from r prev s pos n = "".
Proof.
  induction s as [|c s IH]; intros prev pos n H; [reflexivity|].
  cbn [String.length] in H. destruct n as [|n]; [lia|].
  cbn [sub_from]. apply IH. lia.
Qed.

Lemma sub_from_script_close s : forall prev pos,
  sub_from script_close prev s pos 0 = without_script_close s.
Proof.
  induction s as [|c s IH]; intros prev pos; [reflexivity|].
  cbn [sub_from without_script_close]. rewrite rmatch_script_close.
  destruct (String.eqb (str_lower (String c s)) script_close_text) eqn:E1.
  { cbn [orb m_end].
    replace (pos + 9 =? pos)%nat with false by (symmetry; apply Nat.eqb_neq; lia).
    apply sub_from_skip_all. apply str_lower_length_eq in E1. cbn in E1. lia. }
  destruct (String.eqb (str_lower (String c s)) script_close_line) eqn:E2.
  { cbn [orb m_end].
    replace (pos + 9 =? pos)%nat with false by (symmetry; apply Nat.eqb_neq; lia).
    replace (pos + 9 - pos - 1) with 8 by lia.
    pose proof (str_lower_length_eq _ _ E2) as Hlen.
    do 9 (destruct s as [|? s]; [discriminate Hlen|]).
    destruct s; [|discriminate Hlen].
    cbn [sub_from]. rewrite rmatch_script_close.
    cbn in E2.
    repeat match type of E2 with
    | (if ?b then _ else false) = true => destruct b eqn:?; [|discriminate E2]
    end.
    match goal with
    | H : Ascii.eqb (lower_char ?a) _ = true |- context [String ?a ""] =>
        apply Ascii.eqb_eq, lower_nl in H; subst a
    end.
    reflexivity. }
  cbn [orb]. now rewrite IH.
Qed.

Lemma re_sub_script_close s : re_sub_empty script_close s = without_script_close s.
Proof. apply sub_from_script_close. Qed.

(** Nothing is removed from a text that does not end in [>] or a newline. *)
Lemma without_script_close_keeps s d :
  str_last s = Some d -> d <> ">"%char -> d <> newline -> without_script_close s = s.
Proof.
  intros Hlast Hgt Hnl. induction s as [|c s IH]; [reflexivity|].
  cbn [without_script_close].
  assert (Hl : str_last (str_lower (String c s)) = Some (lower_char d))
    by (unfold str_lower; now rewrite str_last_map, Hlast).
  destruct (String.eqb (str_lower (String c s)) script_close_text) eqn:E1.
  { apply String.eqb_eq in E1. rewrite E1 in Hl. cbv in Hl. inversion Hl as [H].
    symmetry in H. now apply lower_gt in H. }
  destruct (String.eqb (str_lower (String c s)) script_close_line) eqn:E2.
  { apply String.eqb_eq in E2. rewrite E2 in Hl. inversion Hl as [H].
    symmetry in H. now apply lower_nl in H. }
  f_equal. destruct s as [|c' s]; [reflexivity|]. apply IH. exact Hlast.
Qed.

(** A closing tag at the very end is removed, and nothing else. *)
Lemma without_script_close_end body close :
  str_lower close = script_close_text -> without_script_close (body +:+ close) = body.
Proof.
  intros Hclose.
  assert (Hlen : String.length close = 9).
  { rewrite <- (str_length_map lower_char). fold (str_lower close). now rewrite Hclose. }
  assert (Hlast : exists e, str_last close = Some e /\ lower_char e = ">"%char).
  { pose proof (str_last_map lower_char close) as H. fold (str_lower close) in H.
    rewrite Hclose in H. destruct (str_last close) as [e|]; [|discriminate H].
    exists e. split; [reflexivity|]. now inversion H. }
  destruct Hlast as (e & Hlast & He).
  induction body as [|c body IH].
  - change ("" +:+ close) with close. destruct close as [|c0 close]; [discriminate Hlen|].
    cbn [without_script_close]. rewrite Hclose. reflexivity.
  - rewrite str_app_cons. cbn [without_script_close].
    destruct (String.eqb (str_lower (String c (body +:+ close))) script_close_text) eqn:E1.
    { apply str_lower_length_eq in E1. cbn in E1. rewrite str_length_app in E1. lia. }
    destruct (String.eqb (str_lower (String c (body +:+ close))) script_close_line) eqn:E2.
    { apply String.eqb_eq in E2.
      assert (Hl : str_last (str_lower (String c (body +:+ close))) = Some (lower_char e)).
      { unfold str_lower. rewrite str_last_map.
        assert (Hb : str_last (body +:+ close) = Some e).
        { clear -Hlast. induction body as [|x body IHb]; [exact Hlast|].
          rewrite str_app_cons. now apply str_last_cons. }
        now rewrite (str_last_cons _ _ _ Hb). }
      rewrite E2, He in Hl. discriminate Hl. }
    now rewrite IH.
Qed.

Lemma script_close_shape close :
  str_lower close = "</script>" ->
  exists t a, close = String "<" t /\ close = a +:+ String ">" "".
Proof.
  intros Hclose.
  pose proof (str_lower_length_eq close "</script>") as Hlen.
  rewrite Hclose in Hlen. specialize (Hlen eq_refl).
  do 9 (destruct close as [|? close]; [discriminate Hlen|]).
  destruct close; [|discriminate Hlen].
  cbn in Hclose. inversion Hclose.
  match goal with H : lower_char ?x = ">"%char |- _ => apply lower_gt in H; subst x end.
  match goal with H : lower_char ?x = "<"%char |- _ => apply lower_lt in H; subst x end.
  eexists _, (String _ (String _ (String _ (String _ (String _ (String _ (String _
               (String _ "")))))))).
  split; reflexivity.
Qed.

(** ** [_json_sanitize] *)

(** A payload in braces or brackets is left as it is. *)
Lemma sanitize_delimited o body c :
  is_space o = false -> is_space c = false -> mem_char c ";>" = false ->
  _json_sanitize (String o (body +:+ String c "")) = String o (body +:+ String c "").
Proof.
  intros Ho Hc Hm.
  assert (Hstrip : str_strip (String o (body +:+ String c "")) = String o (body +:+ String c "")).
  { unfold str_strip, strip_by. cbn [lstrip_by]. rewrite Ho.
    rewrite <- str_app_cons. now apply rstrip_last. }
  unfold _json_sanitize. rewrite Hstrip. unfold str_rstrip_chars.
  rewrite <- str_app_cons, rstrip_last, str_app_cons, Hstrip, re_sub_script_close.
  - apply (without_script_close_keeps _ c).
    + rewrite <- str_app_cons. apply str_last_app.
    + intros ->. discriminate Hm.
    + intros ->. discriminate Hc.
  - cbn [mem_char] in *. destruct (Ascii.eqb c ";"); [discriminate Hm | reflexivity].
Qed.

(** X9. [_json_sanitize] returns a payload bare that comes wrapped in blanks
    and followed by semicolons: for a payload that neither starts nor ends
    with a blank and does not end with [;] or [>], the blanks before it, the
    semicolons after it and the blanks after those are all removed. *)
Theorem sanitize_unwraps_payload (ws1 mid semis ws2 : string) (c d : ascii) :
  str_forall is_space ws1 = true -> str_forall (Ascii.eqb ";") semis = true ->
  str_forall is_space ws2 = true ->
  is_space c = false -> is_space d = false -> mem_char d ";>" = false ->
  _json_sanitize (ws1 +:+ String c (mid +:+ String d "") +:+ semis +:+ ws2)
  = String c (mid +:+ String d "").
Proof.
  intros H1 Hs H2 Hc Hd Hm.
  assert (Hsemi : Ascii.eqb d ";" = false /\ d <> ">"%char).
  { cbn [mem_char] in Hm. apply orb_false_iff in Hm as [Hm1 Hm2].
    split; [exact Hm1|]. intros ->. discriminate Hm2. }
  destruct Hsemi as [Hsemi Hgt].
  set (body := String c (mid +:+ String d "")).
  assert (Hbody : body = String c mid +:+ String d "") by reflexivity.
  assert (Hstrip : str_strip body = body).
  { unfold str_strip, strip_by. unfold body at 1. cbn [lstrip_by]. rewrite Hc.
    fold body. rewrite Hbody. now apply rstrip_last. }
  unfold _json_sanitize.
  assert (E1 : str_strip (ws1 +:+ body +:+ semis +:+ ws2) = body +:+ semis).
  { unfold str_strip, strip_by. rewrite (lstrip_spaces _ _ _ H1).
    unfold body at 1. rewrite str_app_cons. cbn [lstrip_by]. rewrite Hc.
    rewrite <- str_app_cons. fold body.
    rewrite <- str_app_assoc, (rstrip_spaces _ _ _ H2).
    rewrite Hbody, str_app_assoc. apply rstrip_keeps; [discriminate|].
    apply rstrip_none. change (String d "" +:+ semis) with (String d semis).
    cbn [str_forall]. rewrite Hd. cbn [negb andb].
    apply (str_forall_impl (Ascii.eqb ";")); [|exact Hs].
    intros x Hx. apply Ascii.eqb_eq in Hx. now subst x. }
  rewrite E1.
  assert (E2 : str_rstrip_chars ";" (body +:+ semis) = body).
  { unfold str_rstrip_chars. rewrite rstrip_spaces.
    - rewrite Hbody. apply rstrip_last. cbn [mem_char]. now rewrite Hsemi.
    - apply (str_forall_impl (Ascii.eqb ";")); [|exact Hs].
      intros x Hx. cbn [mem_char]. rewrite orb_false_r. rewrite Ascii.eqb_sym. exact Hx. }
  rewrite E2, Hstrip, re_sub_script_close.
  apply (without_script_close_keeps _ d); [|exact Hgt|].
  - rewrite Hbody. apply str_last_app.
  - intros ->. discriminate Hd.
Qed.

(** X10. When the text ends with a closing script tag (in any case, blanks
    after it or not), [_json_sanitize] cuts the tag off and returns all that
    precedes it without its leading blanks: blanks and semicolons just
    before the tag are not trimmed again. *)
Theorem sanitize_cuts_script_close (body close ws : string) :
  str_lower close = "</script>" -> str_forall is_space ws = true ->
  _json_sanitize (body +:+ close +:+ ws) = lstrip_by is_space body.
Proof.
  intros Hclose Hws.
  destruct (script_close_shape close Hclose) as (t & a & Ht & Ha).
  assert (El : forall rest, lstrip_by is_space (body +:+ close +:+ rest)
                            = lstrip_by is_space body +:+ close +:+ rest).
  { intros rest. rewrite Ht. clear. induction body as [|x body IH]; [reflexivity|].
    rewrite str_app_cons. cbn [lstrip_by]. destruct (is_space x); [exact IH | reflexivity]. }
  assert (El' : lstrip_by is_space (lstrip_by is_space body +:+ close)
                = lstrip_by is_space body +:+ close).
  { rewrite Ht. clear. induction body as [|x body IH]; [reflexivity|].
    cbn [lstrip_by]. destruct (is_space x) eqn:E; [exact IH|].
    rewrite str_app_cons. cbn [lstrip_by]. now rewrite E. }
  assert (Er : forall p, p ">"%char = false ->
                 rstrip_by p (lstrip_by is_space body +:+ close)
                 = lstrip_by is_space body +:+ close).
  { intros p Hp. rewrite Ha, <- str_app_assoc. now apply rstrip_last. }
  unfold _json_sanitize, str_strip, strip_by, str_rstrip_chars.
  rewrite El, <- str_app_assoc, (rstrip_spaces _ _ _ Hws).
  rewrite (Er is_space eq_refl), (Er _ eq_refl), El', (Er is_space eq_refl).
  rewrite re_sub_script_close. now apply without_script_close_end.
Qed.

(** ** Matches and their group *)

(** What one atom of a pattern does: it moves on in the text, or sets an
    end of the group, and hands over to the rest of the pattern. *)
Lemma rmatch_step a r prev s pos gs ge m :
  rmatch (a :: r) prev s pos gs ge = Some m ->
  match a with
  | One p => exists c s', s = String c s' /\ p c = true
                          /\ rmatch r (Some c) s' (S pos) gs ge = Some m
  | Open => rmatch r prev s pos pos ge = Some m
  | Close => rmatch r prev s pos gs pos = Some m
  | _ => exists prev' n, n <= String.length s
                         /\ rmatch r prev' (str_drop n s) (pos + n) gs ge = Some m
  end.
Proof.
  destruct a as [p|p|p| | | |]; cbn [rmatch].
  - destruct s as [|c s]; [discriminate|]. destruct (p c) eqn:E; [|discriminate]. eauto.
  - revert prev pos. induction s as [|c s IH]; intros prev pos H.
    + exists prev, 0. rewrite Nat.add_0_r. split; [cbn; lia | exact H].
    + destruct (p c).
      * match type of H with match ?x with _ => _ end = _ => destruct x as [m'|] eqn:E end.
        -- inversion H; subst m'. apply IH in E as (prev' & n & Hn & E).
           exists prev', (S n).
           rewrite Nat.add_succ_r. split; [cbn; lia | exact E].
        -- exists prev, 0. rewrite Nat.add_0_r. split; [cbn; lia | exact H].
      * exists prev, 0. rewrite Nat.add_0_r. split; [cbn; lia | exact H].
  - revert prev pos. induction s as [|c s IH]; intros prev pos H.
    + exists prev, 0. rewrite Nat.add_0_r. split; [cbn; lia|]. cbn [str_drop].
      destruct (rmatch r prev "" pos gs ge) as [m'|]; [exact H | discriminate].
    + destruct (rmatch r prev (String c s) pos gs ge) as [m'|] eqn:E.
      * exists prev, 0. rewrite Nat.add_0_r. split; [cbn; lia|]. cbn [str_drop]. congruence.
      * destruct (p c); [|discriminate].
        apply IH in H as (prev' & n & Hn & H). exists prev', (S n).
        rewrite Nat.add_succ_r. split; [cbn; lia | exact H].
  - intros H. destruct (xorb _ _); [|discriminate].
    exists prev, 0. rewrite Nat.add_0_r. split; [lia | exact H].
  - intros H. exists prev, 0. rewrite Nat.add_0_r. split; [lia|]. cbn [str_drop].
    destruct s as [|c [|c' s]]; try discriminate; [exact H|].
    destruct (Ascii.eqb c newline); [exact H | discriminate].
  - auto.
  - auto.
Qed.

(** A stretch of a pattern without group parentheses moves on in the text
    and leaves the group as it was. *)
Lemma rmatch_no_group pre r : forall prev s pos gs ge m,
  no_group pre = true ->
  rmatch (pre ++ r) prev s pos gs ge = Some m ->
  exists prev' n, n <= String.length s
                  /\ rmatch r prev' (str_drop n s) (pos + n) gs ge = Some m.
Proof.
  induction pre as [|a pre IH]; intros prev s pos gs ge m Hng H.
  - exists prev, 0. rewrite Nat.add_0_r. split; [lia | exact H].
  - cbn [no_group forallb] in Hng. apply andb_true_iff in Hng as [Ha Hpre].
    cbn [app] in H. apply rmatch_step in H.
    assert (H' : exists prev' n, n <= String.length s
                   /\ rmatch (pre ++ r) prev' (str_drop n s) (pos + n) gs ge = Some m).
    { destruct a; try discriminate Ha; try exact H.
      destruct H as (c & s' & -> & _ & H). exists (Some c), 1.
      rewrite Nat.add_1_r. split; [cbn; lia | exact H]. }
    destruct H' as (prev1 & n1 & Hn1 & H1).
    apply IH in H1 as (prev2 & n2 & Hn2 & H2); [|exact Hpre].
    exists prev2, (n1 + n2). rewrite str_drop_length in Hn2.
    rewrite str_drop_drop, <- Nat.add_assoc in H2. split; [lia | exact H2].
Qed.

(** A match of a pattern whose group opens with the character [o] and
    closes with the character [c] captures a text that starts with [o] and
    ends with [c]. *)
Lemma rmatch_group_delimited pre o mid c post full prev pos gs ge m :
  no_group pre = true -> no_group mid = true -> no_group post = true ->
  rmatch (pre ++ Open :: lit o :: mid ++ lit c :: Close :: post)
    prev (str_drop pos full) pos gs ge = Some m ->
  exists body,
    substring (g_start m) (g_end m - g_start m) full = String o (body +:+ String c "").
Proof.
  intros Hpre Hmid Hpost H.
  apply rmatch_no_group in H as (prev1 & n1 & Hn1 & H); [|exact Hpre].
  apply rmatch_step in H. apply rmatch_step in H as (o' & s2 & Hs1 & Ho & H).
  apply Ascii.eqb_eq in Ho. subst o'.
  apply rmatch_no_group in H as (prev3 & n2 & Hn2 & H); [|exact Hmid].
  apply rmatch_step in H as (c' & s4 & Hs3 & Hc & H).
  apply Ascii.eqb_eq in Hc. subst c'.
  apply rmatch_step in H.
  rewrite <- (app_nil_r post) in H.
  apply rmatch_no_group in H as (prev5 & n3 & Hn3 & H); [|exact Hpost].
  cbn [rmatch] in H. inversion H; subst m; clear H. cbn [g_start g_end].
  exists (str_take n2 s2).
  rewrite substring_drop, <- str_drop_drop, Hs1.
  match goal with |- substring 0 ?len _ = _ => replace len with (S (S n2)) by lia end.
  cbn [substring]. f_equal.
  assert (Hlen : String.length (str_take n2 s2 +:+ String c "") = S n2).
  { rewrite str_length_app, str_take_length by exact Hn2. cbn. lia. }
  assert (Hs2 : s2 = (str_take n2 s2 +:+ String c "") +:+ s4).
  { rewrite str_app_assoc. change (String c "" +:+ s4) with (String c s4).
    rewrite <- Hs3. now apply str_take_drop. }
  rewrite <- Hlen. generalize dependent (str_take n2 s2 +:+ String c "").
  intros u _ ->. apply substring_prefix.
Qed.

(** Every match [scan] lists is a match of the pattern at its position. *)
Lemma scan_matches r full s : forall prev pos skip st m,
  str_drop pos full = s ->
  In (st, m) (scan r prev s pos skip) ->
  exists prev', rmatch r prev' (str_drop st full) st 0 0 = Some m.
Proof.
  induction s as [|c s IH]; intros prev pos skip st m Hs Hin.
  - cbn [scan] in Hin. destruct (rmatch r prev "" pos 0 0) as [m'|] eqn:E; [|destruct Hin].
    destruct Hin as [Hin|[]]. inversion Hin; subst. exists prev. now rewrite Hs.
  - cbn [scan] in Hin. pose proof (str_drop_next _ _ _ _ Hs) as Hs'.
    destruct skip as [|n]; [|now apply (IH _ _ _ _ _ Hs' Hin)].
    destruct (rmatch r prev (String c s) pos 0 0) as [m'|] eqn:E.
    + destruct Hin as [Hin|Hin]; [|now apply (IH _ _ _ _ _ Hs' Hin)].
      inversion Hin; subst. exists prev. now rewrite Hs.
    + now apply (IH _ _ _ _ _ Hs' Hin).
Qed.

Lemma finditer_group_delimited pre o mid c post s text :
  no_group pre = true -> no_group mid = true -> no_group post = true ->
  In text (finditer_group1 (pre ++ Open :: lit o :: mid ++ lit c :: Close :: post) s) ->
  exists body, text = String o (body +:+ String c "").
Proof.
  intros Hpre Hmid Hpost Hin. unfold finditer_group1 in Hin.
  apply in_map_iff in Hin as ([st m] & <- & Hin). cbn [snd].
  apply (scan_matches _ s) in Hin as [prev' H]; [|reflexivity].
  exact (rmatch_group_delimited pre o mid c post s prev' st 0 0 m Hpre Hmid Hpost H).
Qed.

(** X11. Every payload [parse_locator] captures in a script block is
    delimited: braces around what the four state-injection patterns
    capture, brackets around a bare array. On such a text [_json_sanitize]
    changes nothing, so [json.loads] reads the captured text itself. *)
Theorem captured_payloads_are_clean (s : string) (kind : capture_kind) (text : string) :
  In (kind, text) (captures s) ->
  (exists body,
     text = match kind with
            | Payload => String "{" (body +:+ "}")
            | BareArray => String "[" (body +:+ "]")
            end)
  /\ _json_sanitize text = text.
Proof.
  intros Hin.
  assert (H : exists body,
     text = match kind with
            | Payload => String "{" (body +:+ "}")
            | BareArray => String "[" (body +:+ "]")
            end).
  { unfold captures in Hin. apply in_app_or in Hin as [Hin|Hin].
    - apply in_flat_map in Hin as (pat & Hpat & Hin).
      apply in_map_iff in Hin as (t & Ht & Hin). inversion Ht; subst; clear Ht.
      destruct Hpat as [<-|[<-|[<-|[<-|[]]]]].
      + apply (finditer_group_delimited
                 (lits "window.__NUXT__" ++ [Many is_space; lit "="; Many is_space])
                 "{" [Few any_char] "}" ([lit ";"; Many is_space] ++ lits "</")) in Hin;
          [exact Hin | reflexivity..].
      + apply (finditer_group_delimited
                 (lits "__NEXT_DATA__" ++ [lit quote2; Many is_space; lit ":"; Many is_space])
                 "{" [Few any_char] "}" [Many is_space; One (class ",<")]) in Hin;
          [exact Hin | reflexivity..].
      + apply (finditer_group_delimited
                 (lits "window.__APOLLO_STATE__" ++ [Many is_space; lit "="; Many is_space])
                 "{" [Few any_char] "}" [lit ";"]) in Hin;
          [exact Hin | reflexivity..].
      + apply (finditer_group_delimited
                 (lits "window.__INITIAL_STATE__" ++ [Many is_space; lit "="; Many is_space])
                 "{" [Few any_char] "}" [lit ";"]) in Hin;
          [exact Hin | reflexivity..].
    - apply in_map_iff in Hin as (t & Ht & Hin). inversion Ht; subst; clear Ht.
      apply (finditer_group_delimited []
               "[" [Many is_space; lit "{"; Few any_char; lit "}"; Many is_space] "]" []) in Hin;
        [exact Hin | reflexivity..]. }
  split; [exact H|]. destruct H as [body ->].
  destruct kind; now apply sanitize_delimited.
Qed.

(** A match goes through every literal character of its pattern. *)
Lemma rmatch_consumes_literal ch r : forall prev s pos gs ge m,
  In (lit ch) r -> rmatch r prev s pos gs ge = Some m -> mem_char ch s = true.
Proof.
  induction r as [|a r IH]; intros prev s pos gs ge m Hin H; [destruct Hin|].
  apply rmatch_step in H. destruct Hin as [->|Hin].
  - destruct H as (c & s' & -> & Hc & _). cbn [mem_char]. now rewrite Hc.
  - destruct a as [p|p|p| | | |];
      try (destruct H as (prev' & n & _ & H); apply IH in H; [|exact Hin];
           now apply mem_char_drop in H);
      try (now apply IH in H).
    destruct H as (c & s' & -> & _ & H). apply IH in H; [|exact Hin].
    cbn [mem_char]. rewrite H. apply orb_true_r.
Qed.

Lemma scan_without_literal ch r s : forall prev pos skip,
  In (lit ch) r -> mem_char ch s = false -> scan r prev s pos skip = [].
Proof.
  induction s as [|c s IH]; intros prev pos skip Hin Hs; cbn [scan].
  - destruct (rmatch r prev "" pos 0 0) as [m|] eqn:E; [|reflexivity].
    apply (rmatch_consumes_literal ch) in E; [discriminate E | exact Hin].
  - assert (Hs' : mem_char ch s = false).
    { cbn [mem_char] in Hs. now apply orb_false_iff in Hs as [_ Hs]. }
    destruct skip as [|n]; [|now apply IH].
    destruct (rmatch r prev (String c s) pos 0 0) as [m|] eqn:E; [|now apply IH].
    apply (rmatch_consumes_literal ch) in E; [congruence | exact Hin].
Qed.

(** All five patterns have an opening brace in them. *)
Lemma captures_need_brace s : mem_char "{" s = false -> captures s = [].
Proof.
  intros Hs. unfold captures, finditer_group1.
  assert (Hpat : forall pat, In pat (array_pattern :: ssr_patterns) ->
                   scan pat None s 0 0 = []).
  { intros pat Hin. apply (scan_without_literal "{"); [|exact Hs].
    destruct Hin as [<-|[<-|[<-|[<-|[<-|[]]]]]]; cbv [array_pattern lits app braces_group];
      repeat first [left; reflexivity | right]. }
  rewrite (Hpat array_pattern) by now left. cbn [map]. rewrite app_nil_r.
  unfold ssr_patterns. cbn [flat_map].
  rewrite !Hpat by (cbn; auto 10). reflexivity.
Qed.

(** ** Branch names *)

(** X8. The branch is what is left of the display name: the two
    substitutions and the trimming only delete characters, and the result
    neither starts nor ends with a blank. *)
Theorem branch_is_trimmed_rest_of_name (name : string) :
  sublist (chars (clean_branch name)) (chars name)
  /\ (forall c t, clean_branch name = String c t -> is_space c = false)
  /\ (forall d, str_last (clean_branch name) = Some d -> is_space d = false).
Proof.
  split; [|apply strip_ends].
  unfold clean_branch, str_strip, re_sub_empty.
  etrans; [apply strip_deletes|]. etrans; [apply sub_from_deletes|].
  etrans; [apply strip_deletes|]. apply sub_from_deletes.
Qed.

Lemma str_forall_drop p n s : str_forall p s = true -> str_forall p (str_drop n s) = true.
Proof.
  revert s. induction n as [|n IH]; intros s H; [exact H|].
  destruct s as [|c s]; [exact H|]. cbn [str_drop]. apply IH.
  cbn [str_forall] in H. now apply andb_true_iff in H as [_ H].
Qed.

(** A match goes through a character of every class of its pattern. *)
Lemma rmatch_needs_class p r : forall prev s pos gs ge m,
  In (One p) r -> rmatch r prev s pos gs ge = Some m ->
  str_forall (fun c => negb (p c)) s = false.
Proof.
  induction r as [|a r IH]; intros prev s pos gs ge m Hin H; [destruct Hin|].
  apply rmatch_step in H. destruct Hin as [->|Hin].
  - destruct H as (c & s' & -> & Hc & _). cbn [str_forall]. now rewrite Hc.
  - assert (Hdrop : forall n, str_forall (fun c => negb (p c)) (str_drop n s) = false ->
                              str_forall (fun c => negb (p c)) s = false).
    { intros n Hn. destruct (str_forall _ s) eqn:E; [|reflexivity].
      now rewrite (str_forall_drop _ n _ E) in Hn. }
    destruct a as [q|q|q| | | |];
      try (destruct H as (prev' & n & _ & H); apply IH in H; [|exact Hin];
           now apply (Hdrop n));
      try (apply IH in H; [exact H | exact Hin]).
    destruct H as (c & s' & -> & _ & H). apply IH in H; [|exact Hin].
    apply (Hdrop 1). exact H.
Qed.

(** Nothing is substituted in a text without a character of one of the
    classes of the pattern. *)
Lemma sub_from_without_class p r s : forall prev pos,
  In (One p) r -> str_forall (fun c => negb (p c)) s = true ->
  sub_from r prev s pos 0 = s.
Proof.
  induction s as [|c s IH]; intros prev pos Hin Hs; [reflexivity|].
  cbn [sub_from]. destruct (rmatch r prev (String c s) pos 0 0) as [m|] eqn:E.
  - apply (rmatch_needs_class p) in E; [congruence | exact Hin].
  - f_equal. apply IH; [exact Hin|]. cbn [str_forall] in Hs.
    now apply andb_true_iff in Hs as [_ Hs].
Qed.

Lemma lstrip_none p s : str_forall (fun c => negb (p c)) s = true -> lstrip_by p s = s.
Proof.
  destruct s as [|c s]; [reflexivity|]. cbn [str_forall lstrip_by]. intros H.
  apply andb_true_iff in H as [Hc _]. apply negb_true_iff in Hc. now rewrite Hc.
Qed.

Lemma strip_none p s : str_forall (fun c => negb (p c)) s = true -> strip_by p s = s.
Proof. intros H. unfold strip_by. now rewrite (lstrip_none _ _ H), rstrip_none. Qed.

(** X21. The brand is removed only before a separator, and the word
    "agence" only before a blank: the first substitution leaves a name
    without any of the separator characters as it is, the second a name
    without a blank, and a name with neither, a single word for one, is its
    own branch. *)
Theorem name_without_separator_or_blank (name : string) :
  (str_forall (fun c => negb (saham_separator c)) name = true ->
   re_sub_empty saham_prefix name = name)
  /\ (str_forall (fun c => negb (is_space c)) name = true ->
      re_sub_empty agence_prefix name = name)
  /\ (str_forall (fun c => negb (saham_separator c)) name = true ->
      str_forall (fun c => negb (is_space c)) name = true ->
      clean_branch name = name).
Proof.
  assert (H1 : str_forall (fun c => negb (saham_separator c)) name = true ->
               re_sub_empty saham_prefix name = name).
  { intros H. apply (sub_from_without_class saham_separator); [|exact H].
    cbv [saham_prefix litsi app]. repeat first [left; reflexivity | right]. }
  assert (H2 : str_forall (fun c => negb (is_space c)) name = true ->
               re_sub_empty agence_prefix name = name).
  { intros H. apply (sub_from_without_class is_space); [|exact H].
    cbv [agence_prefix litsi app]. repeat first [left; reflexivity | right]. }
  split; [exact H1|]. split; [exact H2|].
  intros Hs Hb. unfold clean_branch. rewrite (H1 Hs). unfold str_strip.
  rewrite (strip_none _ _ Hb), (H2 Hb). now apply strip_none.
Qed.

(** ** Texts of dashes *)

Lemma uint_not_dashes d : only_dashes (NilZero.string_of_uint d) = false.
Proof. destruct d; reflexivity. Qed.

Lemma int_str_not_dashes z : only_dashes (int_str z) = false.
Proof.
  unfold int_str, NilZero.string_of_int.
  destruct (Z.to_int z) as [d|d]; [apply uint_not_dashes|].
  unfold only_dashes. cbn [str_forall]. fold (only_dashes (NilZero.string_of_uint d)).
  rewrite uint_not_dashes. apply andb_false_r.
Qed.

Lemma layout_not_dashes ds decpt : only_dashes (layout_digits ds decpt) = false.
Proof.
  unfold layout_digits, only_dashes.
  repeat match goal with
  | |- context [if ?b then _ else _] => destruct b
  end;
  rewrite ?str_forall_app;
  repeat match goal with
  | |- context [str_forall ?p "0."] => change (str_forall p "0.") with false
  | |- context [str_forall ?p ".0"] => change (str_forall p ".0") with false
  | |- context [str_forall ?p "."] => change (str_forall p ".") with false
  | |- context [str_forall ?p "e"] => change (str_forall p "e") with false
  end;
  rewrite ?andb_false_r, ?andb_false_l; reflexivity.
Qed.

Lemma float_repr_not_dashes f : only_dashes (float_repr f) = false.
Proof.
  destruct f as [[]|[]| |s m e]; try reflexivity.
  unfold float_repr. destruct (shortest_decimal m e) as [d0 p0].
  destruct (drop_trailing_zeros 20 d0 p0) as [d p].
  unfold only_dashes. rewrite str_forall_app.
  fold (only_dashes (layout_digits (int_str d) (Z.of_nat (String.length (int_str d)) + p))).
  rewrite layout_not_dashes. apply andb_false_r.
Qed.

(** Only a [str] prints as dashes. *)
Lemma py_str_dashes v :
  only_dashes (py_str v) = true -> exists s, v = VStr s /\ only_dashes s = true.
Proof.
  destruct v as [|[]|z|f|s|l|d]; cbn [py_str py_repr]; intros H;
    try discriminate H;
    try (now rewrite int_str_not_dashes in H);
    try (now rewrite float_repr_not_dashes in H);
    try (unfold only_dashes in H; rewrite str_forall_app in H; discriminate H).
  eauto.
Qed.

(** ** Decimal points *)

Lemma str_count_app c a b : str_count c (a +:+ b) = str_count c a + str_count c b.
Proof.
  induction a as [|x a IH]; [reflexivity|].
  rewrite str_app_cons. cbn [str_count]. rewrite IH. lia.
Qed.

Lemma lstrip_count p c s : p c = false -> str_count c (lstrip_by p s) = str_count c s.
Proof.
  intros Hc. induction s as [|x s IH]; [reflexivity|]. cbn [lstrip_by].
  destruct (p x) eqn:Hx; [|reflexivity]. cbn [str_count]. rewrite IH.
  destruct (Ascii.eqb x c) eqn:E; [|reflexivity].
  apply Ascii.eqb_eq in E. congruence.
Qed.

Lemma rstrip_count p c s : p c = false -> str_count c (rstrip_by p s) = str_count c s.
Proof.
  intros Hc. induction s as [|x s IH]; [reflexivity|]. cbn [rstrip_by str_count].
  rewrite <- IH. destruct (rstrip_by p s) as [|y t]; [|reflexivity].
  destruct (p x) eqn:Hx; [|reflexivity]. cbn [str_count].
  destruct (Ascii.eqb x c) eqn:E; [|reflexivity].
  apply Ascii.eqb_eq in E. congruence.
Qed.

Lemma take_sign_count s neg body :
  take_sign s = (neg, body) -> str_count "." s = str_count "." body.
Proof.
  intros H. apply take_sign_body in H as (pre & -> & Hpre).
  rewrite str_count_app. destruct Hpre as [H|[H|H]]; inversion H; reflexivity.
Qed.

Lemma lower_point c : Ascii.eqb (lower_char c) "." = Ascii.eqb c ".".
Proof. each_char c. Qed.

Lemma str_lower_count s : str_count "." (str_lower s) = str_count "." s.
Proof.
  induction s as [|c s IH]; [reflexivity|]. cbn [str_lower str_map str_count].
  fold (str_lower s). now rewrite IH, lower_point.
Qed.

Lemma digit_not_point c : is_digit c = true -> Ascii.eqb c "." = false.
Proof. intros H. now destruct (digit_not_special c H) as (_ & _ & _ & H' & _). Qed.

Lemma digitpart_tail_count_upto n : forall s ds r,
  String.length s <= n -> digitpart_tail s = (ds, r) ->
  str_count "." s = str_count "." r.
Proof.
  induction n as [|n IH]; intros s ds r Hlen H.
  - destruct s; [inversion H; reflexivity | cbn in Hlen; lia].
  - destruct s as [|c s]; [inversion H; reflexivity|]. cbn [String.length] in Hlen.
    cbn [digitpart_tail] in H. destruct (is_digit c) eqn:Hc.
    + destruct (digitpart_tail s) as [ds' r'] eqn:E. inversion H; subst.
      cbn [str_count]. rewrite (digit_not_point _ Hc).
      apply IH in E; [exact E | lia].
    + destruct (Ascii.eqb c "_") eqn:Hu; [|inversion H; reflexivity].
      destruct s as [|d s]; [inversion H; reflexivity|].
      destruct (is_digit d) eqn:Hd; [|inversion H; reflexivity].
      destruct (digitpart_tail s) as [ds' r'] eqn:E. inversion H; subst.
      apply Ascii.eqb_eq in Hu. subst c.
      cbn [str_count]. rewrite (digit_not_point _ Hd). cbn.
      cbn [String.length] in Hlen. apply IH in E; [exact E | lia].
Qed.

Lemma digitpart_tail_count s ds r :
  digitpart_tail s = (ds, r) -> str_count "." s = str_count "." r.
Proof. apply (digitpart_tail_count_upto (String.length s)). lia. Qed.

Lemma digitpart_count s ds r :
  digitpart s = Some (ds, r) -> str_count "." s = str_count "." r.
Proof.
  unfold digitpart. destruct s as [|c s]; [discriminate|].
  destruct (is_digit c) eqn:Hc; [|discriminate].
  destruct (digitpart_tail s) as [ds' r'] eqn:E. intros H. inversion H; subst.
  cbn [str_count]. rewrite (digit_not_point _ Hc). now apply digitpart_tail_count in E.
Qed.

Lemma parse_number_count s ip fp r :
  parse_number s = Some (ip, fp, r) -> str_count "." s <= 1 + str_count "." r.
Proof.
  unfold parse_number. destruct (digitpart s) as [[ip' r1]|] eqn:E1.
  - apply digitpart_count in E1. rewrite E1.
    destruct r1 as [|c r1]; [intros H; inversion H; subst; cbn; lia|].
    destruct (Ascii.eqb c ".") eqn:Hc.
    + destruct (digitpart r1) as [[fp' r2]|] eqn:E2.
      * apply digitpart_count in E2. intros H. inversion H; subst.
        cbn [str_count]. rewrite Hc, E2. lia.
      * intros H. inversion H; subst. cbn [str_count]. rewrite Hc. lia.
    + intros H. inversion H; subst. lia.
  - destruct s as [|c s]; [discriminate|].
    destruct (Ascii.eqb c ".") eqn:Hc; [|discriminate].
    destruct (digitpart s) as [[fp' r2]|] eqn:E2; [|discriminate].
    apply digitpart_count in E2. intros H. inversion H; subst.
    cbn [str_count]. rewrite Hc, E2. lia.
Qed.

Lemma parse_exponent_count r e : parse_exponent r = Some e -> str_count "." r = 0.
Proof.
  unfold parse_exponent. destruct r as [|c r]; [reflexivity|].
  destruct (Ascii.eqb (lower_char c) "e") eqn:Hc; [|discriminate].
  destruct (take_sign r) as [neg r'] eqn:Hs.
  destruct (digitpart r') as [[ds [|? ?]]|] eqn:E; try discriminate.
  intros _. apply digitpart_count in E. apply take_sign_count in Hs.
  cbn [str_count]. rewrite Hs, E.
  destruct (Ascii.eqb c ".") eqn:Hp; [|reflexivity].
  apply Ascii.eqb_eq in Hp. subst c. discriminate Hc.
Qed.

(** [float] accepts no text with two decimal points. *)
Lemma float_of_str_points s x : float_of_str s = Some x -> str_count "." s <= 1.
Proof.
  unfold float_of_str, strip_by.
  rewrite <- (lstrip_count is_float_space "." s eq_refl).
  rewrite <- (rstrip_count is_float_space "." _ eq_refl).
  destruct (take_sign _) as [neg body] eqn:Hs.
  rewrite (take_sign_count _ _ _ Hs), <- str_lower_count.
  destruct (String.eqb (str_lower body) "inf") eqn:E1.
  { apply String.eqb_eq in E1. rewrite E1. cbn. lia. }
  destruct (String.eqb (str_lower body) "infinity") eqn:E2.
  { apply String.eqb_eq in E2. rewrite E2. cbn. lia. }
  destruct (String.eqb (str_lower body) "nan") eqn:E3.
  { apply String.eqb_eq in E3. rewrite E3. cbn. lia. }
  cbn [orb]. rewrite str_lower_count.
  destruct (parse_number body) as [[[ip fp] r]|] eqn:Hn; [|discriminate].
  destruct (parse_exponent r) as [e|] eqn:He; [|discriminate].
  intros _. apply parse_number_count in Hn. apply parse_exponent_count in He. lia.
Qed.

Lemma replace_count s :
  str_count "." (str_replace "," "." s) = str_count "," s + str_count "." s.
Proof.
  unfold str_replace. induction s as [|c s IH]; [reflexivity|].
  cbn [str_map str_count]. rewrite IH.
  destruct (Ascii.eqb c ",") eqn:E1.
  - apply Ascii.eqb_eq in E1. subst c. cbn. lia.
  - destruct (Ascii.eqb c ".") eqn:E2; cbn; lia.
Qed.

(** ** [_dict_to_item], further *)

Section Normalizer.

Variable DictParser_parse : pydict -> Feature.

Abbreviation d2i := (_dict_to_item DictParser_parse).

(** X1. [_dict_to_item] raises [AttributeError] for a record that is no
    dictionary. For a dictionary it returns an item exactly when the display
    name is falsy or a [str], with the cleaned name as 'branch' in the
    second case and the 'branch' of [DictParser.parse] in the first; for
    any other display name it raises [TypeError]. *)
Theorem dict_to_item_raises_or_returns (raw : value) :
  match raw with
  | VDict d =>
      let name := display_name (DictParser_parse d) d in
      if truthy name then
        match name with
        | VStr s =>
            exists item, d2i raw = Ok item
              /\ item !! "branch" = Some (VStr (clean_branch s))
        | _ => d2i raw = Raise TypeError
        end
      else
        exists item, d2i raw = Ok item
          /\ item !! "branch" = DictParser_parse d !! "branch"
  | _ => d2i raw = Raise AttributeError
  end.
Proof.
  destruct raw as [| | | | | |d]; try reflexivity.
  cbv zeta. rewrite dict_to_item_unfold. unfold set_branch.
  destruct (truthy (display_name (DictParser_parse d) d)) eqn:Ht.
  - destruct (display_name (DictParser_parse d) d) as [| | | |s| |]; try reflexivity.
    eexists. split; [reflexivity|].
    rewrite finish_lookup_other by done.
    now rewrite lookup_delete_ne, lookup_insert_eq.
  - eexists. split; [reflexivity|]. now rewrite finish_lookup_other.
Qed.

Lemma finish_has_fields raw (item : Feature) k :
  In k ["street_address"; "city"; "state"; "postcode"; "phone"; "email"; "ref"] ->
  is_Some (finish raw item !! k).
Proof.
  intros Hk. cbn [In] in Hk.
  destruct Hk as [<-|[<-|[<-|[<-|[<-|[<-|[<-|[]]]]]]]];
    unfold finish; rewrite apply_category_lookup by done;
    try (unfold set_ref; rewrite lookup_insert_eq; eauto; fail);
    rewrite set_ref_lookup, set_geo_lookup by done;
    try (unfold set_contact;
         first [rewrite lookup_insert_eq | rewrite lookup_insert_ne, lookup_insert_eq by done];
         eauto; fail);
    rewrite set_contact_lookup by done; unfold set_address;
    first [ rewrite lookup_insert_eq
          | rewrite lookup_insert_ne, lookup_insert_eq by done
          | rewrite !lookup_insert_ne, lookup_insert_eq by done ];
    eauto.
Qed.

Lemma item_name_falsy raw item :
  d2i (VDict raw) = Ok item -> truthy (item_get item "name") = false.
Proof.
  intros H. apply dict_to_item_stages in H as (item1 & H1 & ->).
  unfold item_get. rewrite finish_lookup_other by done.
  unfold set_branch in H1.
  destruct (truthy (display_name (DictParser_parse raw) raw)) eqn:Ht.
  - destruct (display_name (DictParser_parse raw) raw); try discriminate H1.
    inversion H1. now rewrite lookup_delete_eq.
  - inversion H1; subst item1. unfold display_name in Ht.
    rewrite !truthy_or in Ht. apply orb_false_iff in Ht as [Ht _].
    apply orb_false_iff in Ht as [Ht _]. apply orb_false_iff in Ht as [Ht _]. exact Ht.
Qed.

(** X2. Every item [_dict_to_item] returns holds the fields
    'street_address', 'city', 'state', 'postcode', 'phone', 'email' and
    'ref' (with [None] where nothing was found), and no truthy 'name': the
    name is removed whenever there is a display name. *)
Theorem returned_item_fields (raw : pydict) (item : Feature) :
  d2i (VDict raw) = Ok item ->
  (forall k, In k ["street_address"; "city"; "state"; "postcode"; "phone"; "email"; "ref"] ->
             is_Some (item !! k))
  /\ truthy (item_get item "name") = false
  /\ (truthy (display_name (DictParser_parse raw) raw) = true -> item !! "name" = None).
Proof.
  intros H. split_ands.
  - intros k Hk. apply dict_to_item_stages in H as (item1 & _ & ->).
    now apply finish_has_fields.
  - now apply (item_name_falsy raw).
  - intros Ht. apply dict_to_item_stages in H as (item1 & H1 & ->).
    rewrite finish_lookup_other by done. unfold set_branch in H1. rewrite Ht in H1.
    destruct (display_name (DictParser_parse raw) raw); try discriminate H1.
    inversion H1. now rewrite lookup_delete_eq.
Qed.

(** X3. For an item [_dict_to_item] returned, the name in the
    de-duplication key of [parse_locator] is always the branch: the key is
    the 'ref' when that is truthy, and otherwise the tuple of [str(lat)],
    [str(lon)] and the 'branch'. *)
Theorem dedup_key_names_the_branch (raw : pydict) (item : Feature) :
  d2i (VDict raw) = Ok item ->
  dedup_key item
  = if truthy (item_get item "ref") then KVal (item_get item "ref")
    else KTuple (py_str (item_get item "lat")) (py_str (item_get item "lon"))
           (item_get item "branch").
Proof.
  intros H. unfold dedup_key. destruct (truthy (item_get item "ref")); [reflexivity|].
  unfold py_or. now rewrite (item_name_falsy raw item H).
Qed.

(** X4. [_dict_to_item] leaves every field other than the twelve it
    assigns as [DictParser.parse] produced it. *)
Theorem other_fields_are_left_alone (raw : pydict) (item : Feature) (k : string) :
  _dict_to_item DictParser_parse (VDict raw) = Ok item ->
  ~ In k ["name"; "branch"; "street_address"; "city"; "state"; "postcode"; "phone";
          "email"; "lat"; "lon"; "ref"; "extras"] ->
  item !! k = DictParser_parse raw !! k.
Proof.
  intros H Hk. apply dict_to_item_stages in H as (item1 & H1 & ->).
  cbn [In] in Hk.
  rewrite finish_lookup_other by (intros ->; apply Hk; tauto).
  apply (set_branch_lookup _ _ _ _ H1); intros ->; apply Hk; tauto.
Qed.

(** X5. When the latitude and the longitude read from the record are both
    truthy and [float] accepts both (a [str] with its commas replaced by
    points, a number as it is), the item returned has exactly these floats
    as 'lat' and 'lon', whatever [DictParser.parse] had put there. *)
Theorem convertible_coordinates_are_stored (raw : pydict) (x y : spec_float) :
  truthy (raw_lat raw) = true -> truthy (raw_lon raw) = true ->
  py_float (decimal_point (raw_lat raw)) = Some x ->
  py_float (decimal_point (raw_lon raw)) = Some y ->
  forall item, d2i (VDict raw) = Ok item ->
    item !! "lat" = Some (VFloat x) /\ item !! "lon" = Some (VFloat y).
Proof.
  intros Ht1 Ht2 Hx Hy item H. apply dict_to_item_stages in H as (item1 & _ & ->).
  rewrite !finish_lookup_geo by auto.
  apply set_geo_converted; now rewrite ?truthy_decimal_point.
Qed.

(** X6. When [float] accepts the latitude and rejects the longitude (both
    truthy), the assignment of 'lat' has already happened when the exception
    is swallowed: the item returned has the converted latitude, and the
    longitude of [DictParser.parse]. *)
Theorem half_converted_coordinates (raw : pydict) (x : spec_float) (item : Feature) :
  truthy (raw_lat raw) = true -> truthy (raw_lon raw) = true ->
  py_float (decimal_point (raw_lat raw)) = Some x ->
  py_float (decimal_point (raw_lon raw)) = None ->
  d2i (VDict raw) = Ok item ->
  item !! "lat" = Some (VFloat x) /\ item !! "lon" = DictParser_parse raw !! "lon".
Proof.
  intros Ht1 Ht2 Hx Hy H. apply dict_to_item_stages in H as (item1 & H1 & ->).
  rewrite !finish_lookup_geo by auto. unfold set_geo.
  rewrite !truthy_decimal_point, Ht1, Ht2, Hx, Hy. cbn [andb].
  split; [now rewrite lookup_insert_eq|].
  rewrite lookup_insert_ne, set_contact_lookup, set_address_lookup by done.
  apply (set_branch_lookup _ _ _ _ H1); done.
Qed.

(** X7. An item gets an empty 'ref' only when its 'city' is a [str] made
    of dashes alone (the empty string for one) and its 'branch' is missing
    or such a string too; so only for such records does [parse_locator] fall
    back on the tuple of coordinates and name. *)
Theorem empty_ref_needs_dash_city (raw : pydict) (item : Feature) :
  d2i (VDict raw) = Ok item ->
  truthy (item_get item "ref") = false ->
  exists city branch,
    item !! "city" = Some (VStr city) /\ only_dashes city = true
    /\ item_get_or item "branch" (VStr "") = VStr branch /\ only_dashes branch = true.
Proof.
  intros Hitem Href.
  assert (Hcity : is_Some (item !! "city")).
  { pose proof Hitem as H. apply dict_to_item_stages in H as (item1 & _ & ->).
    apply finish_has_fields. cbn. auto. }
  pose proof Hitem as H. apply dict_to_item_stages in H as (item1 & _ & E).
  rewrite E, finish_ref, <- E in Href. rewrite !truthy_or in Href.
  apply orb_false_iff in Href as [_ Href]. cbn [truthy] in Href.
  apply negb_false_iff, String.eqb_eq in Href.
  unfold synthesized_ref, str_strip_chars in Href. apply strip_empty in Href.
  rewrite !str_forall_app in Href.
  apply andb_true_iff in Href as [Hc Hb]. apply andb_true_iff in Hb as [_ Hb].
  apply py_str_dashes in Hc as (city & Hc & Hdc), Hb as (branch & Hb & Hdb).
  exists city, branch. split_ands; try assumption.
  destruct Hcity as [v Hv]. unfold item_get_or in Hc. rewrite Hv in Hc. cbn in Hc.
  now subst v.
Qed.

(** X20. A coordinate text with two or more separators (commas and points
    together, as in "33,573,1" or "1,234.5") is never converted: every comma
    becomes a point and [float] rejects a text with two points. When the
    latitude is such a text both fields stay as [DictParser.parse] produced
    them; when the longitude is, 'lon' does. *)
Theorem two_separators_defeat_conversion (s : string) :
  2 <= str_count "," s + str_count "." s ->
  float_of_str (str_replace "," "." s) = None
  /\ forall raw item, d2i (VDict raw) = Ok item ->
       (raw_lat raw = VStr s ->
        item !! "lat" = DictParser_parse raw !! "lat"
        /\ item !! "lon" = DictParser_parse raw !! "lon")
       /\ (raw_lon raw = VStr s -> item !! "lon" = DictParser_parse raw !! "lon").
Proof.
  intros Hcount.
  assert (Hnone : float_of_str (str_replace "," "." s) = None).
  { destruct (float_of_str (str_replace "," "." s)) as [x|] eqn:E; [|reflexivity].
    apply float_of_str_points in E. rewrite replace_count in E. lia. }
  split; [exact Hnone|]. intros raw item H.
  apply dict_to_item_stages in H as (item1 & H1 & ->).
  rewrite !finish_lookup_geo by auto. split.
  - intros Hlat.
    rewrite set_geo_unparsable_lat by (rewrite Hlat; exact Hnone).
    rewrite !set_contact_lookup, !set_address_lookup by done.
    split; apply (set_branch_lookup _ _ _ _ H1); done.
  - intros Hlon.
    rewrite set_geo_unparsable_lon by (right; rewrite Hlon; exact Hnone).
    rewrite set_contact_lookup, set_address_lookup by done.
    apply (set_branch_lookup _ _ _ _ H1); done.
Qed.

End Normalizer.

(** ** The two loops *)

Section Loops.

Variable DictParser_parse : pydict -> Feature.
Variable json_loads : string -> result value.

Abbreviation d2i' := (_dict_to_item DictParser_parse).
Abbreviation emit' := (emit DictParser_parse).
Abbreviation yield_items' := (yield_items DictParser_parse).

Lemma yield_items_cons raw item rest :
  d2i' raw = Ok item ->
  yield_items' (raw :: rest) = yield_first item (yield_items' rest).
Proof. intros H. cbn [yield_items]. now rewrite H, (dict_to_item_truthy _ _ _ H). Qed.

Lemma yield_items_cons_raise raw e rest :
  d2i' raw = Raise e -> yield_items' (raw :: rest) = {| yielded := []; raised := Some e |}.
Proof. intros H. cbn [yield_items]. now rewrite H. Qed.

(** Every item the loop yields has a key that was not in [seen]. *)
Lemma emit_yields_unseen l : forall seen b,
  In b (yielded (emit' l seen)) -> key_in (dedup_key b) seen = false.
Proof.
  induction l as [|raw l IH]; intros seen b Hin; [destruct Hin|].
  destruct (d2i' raw) as [item|e] eqn:Hraw.
  2:{ rewrite (emit_cons_raise _ _ _ _ _ Hraw) in Hin. destruct Hin. }
  rewrite (emit_cons _ _ _ _ _ Hraw) in Hin.
  destruct (hashable_key (dedup_key item)); cbn [negb] in Hin; [|destruct Hin].
  destruct (key_in (dedup_key item) seen) eqn:Hseen; [now apply IH|].
  cbn [yield_first yielded] in Hin. destruct Hin as [<-|Hin]; [exact Hseen|].
  apply IH in Hin. unfold key_in in *. cbn [existsb] in Hin.
  now apply orb_false_iff in Hin as [_ Hin].
Qed.

(** X13. No two items [parse_locator]'s loop emits have equal keys: the
    key of an item emitted later differs from the key of every item emitted
    before it, and from every key the set held at the start. *)
Theorem emitted_keys_are_distinct (l : list value) (seen : list key) (i j : nat)
    (a b : Feature) :
  yielded (emit' l seen) !! i = Some a -> yielded (emit' l seen) !! j = Some b ->
  (i < j)%nat ->
  key_eqb (dedup_key b) (dedup_key a) = false
  /\ key_in (dedup_key a) seen = false.
Proof.
  revert seen i j. induction l as [|raw l IH]; intros seen i j Ha Hb Hij; [discriminate Ha|].
  destruct (d2i' raw) as [item|e] eqn:Hraw.
  2:{ rewrite (emit_cons_raise _ _ _ _ _ Hraw) in Ha. discriminate Ha. }
  rewrite (emit_cons _ _ _ _ _ Hraw) in Ha, Hb.
  destruct (hashable_key (dedup_key item)); cbn [negb] in Ha, Hb; [|discriminate Ha].
  destruct (key_in (dedup_key item) seen) eqn:Hseen; [now apply (IH seen i j)|].
  cbn [yield_first yielded] in Ha, Hb.
  destruct j as [|j]; [lia|]. cbn in Hb.
  destruct i as [|i].
  - cbn in Ha. inversion Ha; subst a. split; [|exact Hseen].
    apply list_elem_of_lookup_2, list_elem_of_In, emit_yields_unseen in Hb.
    unfold key_in in Hb. cbn [existsb] in Hb. now apply orb_false_iff in Hb as [Hb _].
  - cbn in Ha. destruct (IH (dedup_key item :: seen) i j Ha Hb) as [H1 H2]; [lia|].
    split; [exact H1|]. unfold key_in in *. cbn [existsb] in H2.
    now apply orb_false_iff in H2 as [_ H2].
Qed.

(** X14. On the same list of records, the items [parse_locator]'s loop
    emits are a subsequence of those [parse_api]'s loop emits: the same
    normalised items in the same order, fewer of them. *)
Theorem emitted_items_are_those_of_parse_api (l : list value) (seen : list key) :
  sublist (yielded (emit' l seen)) (yielded (yield_items' l)).
Proof.
  revert seen. induction l as [|raw l IH]; intros seen; [constructor|].
  destruct (d2i' raw) as [item|e] eqn:Hraw.
  2:{ rewrite (emit_cons_raise _ _ _ _ _ Hraw), (yield_items_cons_raise _ _ _ Hraw).
      constructor. }
  rewrite (emit_cons _ _ _ _ _ Hraw), (yield_items_cons _ _ _ Hraw).
  cbn [yield_first yielded].
  destruct (hashable_key (dedup_key item)); cbn [negb]; [|apply sublist_nil_l].
  destruct (key_in (dedup_key item) seen).
  - apply sublist_cons. apply IH.
  - cbn [yield_first yielded]. apply sublist_skip. apply IH.
Qed.

(** A run that has raised is not continued. *)
Lemma emit_raised_stops pre : forall post seen,
  raised (emit' pre seen) <> None -> emit' (pre ++ post) seen = emit' pre seen.
Proof.
  induction pre as [|raw pre IH]; intros post seen H; [now destruct H|].
  cbn [app]. destruct (d2i' raw) as [item|e] eqn:Hraw.
  2:{ now rewrite !(emit_cons_raise _ _ _ _ _ Hraw). }
  rewrite (emit_cons _ _ _ _ _ Hraw) in H. rewrite !(emit_cons _ _ _ _ _ Hraw).
  destruct (hashable_key (dedup_key item)); cbn [negb] in *; [|reflexivity].
  destruct (key_in (dedup_key item) seen); [now apply IH|].
  f_equal. apply IH. exact H.
Qed.

Lemma emit_rejected_raises pre raw e : forall seen,
  In raw pre -> d2i' raw = Raise e -> raised (emit' pre seen) <> None.
Proof.
  induction pre as [|x pre IH]; intros seen Hin Hraw; [destruct Hin|].
  destruct (d2i' x) as [item|e'] eqn:Hx.
  2:{ now rewrite (emit_cons_raise _ _ _ _ _ Hx). }
  destruct Hin as [->|Hin]; [congruence|].
  rewrite (emit_cons _ _ _ _ _ Hx).
  destruct (hashable_key (dedup_key item)); cbn [negb]; [|discriminate].
  destruct (key_in (dedup_key item) seen); cbn [yield_first raised]; now apply IH.
Qed.

(** A record that occurs earlier in the list can be taken out. *)
Lemma emit_drops_repeat pre raw post seen :
  In raw pre -> emit' (pre ++ raw :: post) seen = emit' (pre ++ post) seen.
Proof.
  intros Hin. destruct (d2i' raw) as [b|e] eqn:Hraw.
  - apply (emit_skips_known_key _ _ _ b); [exact Hraw|]. right. eauto.
  - pose proof (emit_rejected_raises _ _ _ seen Hin Hraw) as H.
    now rewrite !(emit_raised_stops _ _ _ H).
Qed.

Lemma emit_drops_repeats pre again post seen :
  (forall raw, In raw again -> In raw pre) ->
  emit' (pre ++ again ++ post) seen = emit' (pre ++ post) seen.
Proof.
  induction again as [|raw again IH]; intros H; [reflexivity|].
  cbn [app]. rewrite emit_drops_repeat by (apply H; now left).
  apply IH. intros x Hx. apply H. now right.
Qed.

Lemma collect_locations_total scripts :
  collect_locations json_loads scripts
  = Ok (flat_map (contribution json_loads) (flat_map captures scripts)).
Proof.
  unfold collect_locations.
  rewrite (for_each_appends _ (fun s => flat_map (contribution json_loads) (captures s)))
    by apply scan_script_total.
  now rewrite flat_map_flat_map.
Qed.

Lemma parse_locator_unfold r :
  parse_locator DictParser_parse json_loads r
  = emit' (flat_map (contribution json_loads)
             (flat_map captures (json_scripts r ++ all_scripts r))) [].
Proof. unfold parse_locator. now rewrite collect_locations_total. Qed.

(** X12. A script block without an opening brace has no payload for any of
    the five patterns: when no script block of the response has one,
    [parse_locator] collects no record, emits nothing and raises nothing,
    whatever [json.loads] does. *)
Theorem scripts_without_brace_yield_nothing (r : response) :
  forallb (fun s => negb (mem_char "{" s)) (json_scripts r ++ all_scripts r) = true ->
  collect_locations json_loads (json_scripts r ++ all_scripts r) = Ok []
  /\ parse_locator DictParser_parse json_loads r = {| yielded := []; raised := None |}.
Proof.
  intros H.
  assert (E : flat_map captures (json_scripts r ++ all_scripts r) = []).
  { induction (json_scripts r ++ all_scripts r) as [|s l IH]; [reflexivity|].
    cbn [forallb] in H. apply andb_true_iff in H as [Hs Hl].
    cbn [flat_map]. rewrite captures_need_brace, IH; [reflexivity | exact Hl |].
    now apply negb_true_iff. }
  split.
  - now rewrite collect_locations_total, E.
  - now rewrite parse_locator_unfold, E.
Qed.

(** X15. [parse_locator] scans the JSON script blocks twice, once for each
    of its two queries. The second visit changes nothing: a script block of
    the second query that the first query returned as well can be left out
    of the second without changing what is emitted or raised. *)
Theorem repeated_script_adds_nothing (js a1 a2 : list string) (s : string) :
  In s js ->
  parse_locator DictParser_parse json_loads
    {| json_scripts := js; all_scripts := a1 ++ s :: a2 |}
  = parse_locator DictParser_parse json_loads
      {| json_scripts := js; all_scripts := a1 ++ a2 |}.
Proof.
  intros Hin. rewrite !parse_locator_unfold. cbn [json_scripts all_scripts].
  set (recs := fun scripts => flat_map (contribution json_loads) (flat_map captures scripts)).
  assert (Happ : forall x y, recs (x ++ y) = recs x ++ recs y)
    by (intros; unfold recs; now rewrite !flat_map_app).
  change (emit' (recs (js ++ a1 ++ s :: a2)) [] = emit' (recs (js ++ a1 ++ a2)) []).
  change (s :: a2) with ([s] ++ a2).
  rewrite !app_assoc, !Happ, <- !app_assoc.
  rewrite (app_assoc (recs js)).
  rewrite (app_assoc (recs js) (recs a1) (recs a2)).
  apply emit_drops_repeats.
  intros raw Hraw. apply in_or_app. left.
  unfold recs in *. cbn [flat_map] in Hraw. rewrite app_nil_r in Hraw.
  apply in_flat_map in Hraw as (c & Hc & Hraw).
  apply in_flat_map. exists c. split; [|exact Hraw].
  apply in_flat_map. now exists s.
Qed.

(** X16. A record [_dict_to_item] rejects ends the generator with that
    exception, in [parse_locator] as in [parse_api]: the items of the
    records before it have been emitted, and no record after it is looked
    at. *)
Theorem rejected_record_ends_the_run (pre post : list value) (raw : value) (e : exn)
    (seen : list key) :
  d2i' raw = Raise e ->
  (raised (emit' pre seen) = None ->
   emit' (pre ++ raw :: post) seen
   = {| yielded := yielded (emit' pre seen); raised := Some e |})
  /\ (raised (yield_items' pre) = None ->
      yield_items' (pre ++ raw :: post)
      = {| yielded := yielded (yield_items' pre); raised := Some e |}).
Proof.
  intros Hraw. split.
  - revert seen. induction pre as [|x pre IH]; intros seen H.
    + cbn [app]. now rewrite (emit_cons_raise _ _ _ _ _ Hraw).
    + cbn [app]. destruct (d2i' x) as [item|e'] eqn:Hx.
      2:{ now rewrite (emit_cons_raise _ _ _ _ _ Hx) in H. }
      rewrite (emit_cons _ _ _ _ _ Hx) in H. rewrite !(emit_cons _ _ _ _ _ Hx).
      destruct (hashable_key (dedup_key item)); cbn [negb raised] in *; [|discriminate H].
      destruct (key_in (dedup_key item) seen); [now apply IH|].
      cbn [yield_first yielded raised] in *. now rewrite IH.
  - induction pre as [|x pre IH]; intros H.
    + cbn [app]. now rewrite (yield_items_cons_raise _ _ _ Hraw).
    + cbn [app]. destruct (d2i' x) as [item|e'] eqn:Hx.
      2:{ now rewrite (yield_items_cons_raise _ _ _ Hx) in H. }
      rewrite (yield_items_cons _ _ _ Hx) in H. rewrite !(yield_items_cons _ _ _ Hx).
      cbn [yield_first yielded raised] in *. now rewrite IH.
Qed.

(** X17. A record whose 'id' is a non-empty list or dictionary gets it as
    its 'ref' and so as its key, which cannot be hashed: [parse_locator]
    ends with [TypeError] at this record, after the items of the records
    before it. [parse_api], which keeps no set, emits the record and goes
    on. *)
Theorem unhashable_id_ends_the_run (pre post : list value) (raw : pydict) (item : Feature)
    (seen : list key) :
  d2i' (VDict raw) = Ok item ->
  truthy (dict_get raw "id") = true -> hashable (dict_get raw "id") = false ->
  (raised (emit' pre seen) = None ->
   emit' (pre ++ VDict raw :: post) seen
   = {| yielded := yielded (emit' pre seen); raised := Some TypeError |})
  /\ (raised (yield_items' pre) = None ->
      yielded (yield_items' (pre ++ VDict raw :: post))
      = yielded (yield_items' pre) ++ item :: yielded (yield_items' post)).
Proof.
  intros Hraw Ht Hh.
  assert (Hkey : hashable_key (dedup_key item) = false).
  { pose proof Hraw as H. apply dict_to_item_stages in H as (item1 & _ & ->).
    assert (Hor : forall b, dict_get raw "id" or' b = dict_get raw "id")
      by (intros b; unfold py_or; now rewrite Ht).
    unfold dedup_key. rewrite finish_ref, !Hor, Ht. exact Hh. }
  split.
  - revert seen. induction pre as [|x pre IH]; intros seen H.
    + cbn [app]. now rewrite (emit_cons _ _ _ _ _ Hraw), Hkey.
    + cbn [app]. destruct (d2i' x) as [it|e'] eqn:Hx.
      2:{ now rewrite (emit_cons_raise _ _ _ _ _ Hx) in H. }
      rewrite (emit_cons _ _ _ _ _ Hx) in H. rewrite !(emit_cons _ _ _ _ _ Hx).
      destruct (hashable_key (dedup_key it)); cbn [negb raised] in *; [|discriminate H].
      destruct (key_in (dedup_key it) seen); [now apply IH|].
      cbn [yield_first yielded raised] in *. now rewrite IH.
  - induction pre as [|x pre IH]; intros H.
    + cbn [app]. now rewrite (yield_items_cons _ _ _ Hraw).
    + cbn [app]. destruct (d2i' x) as [it|e'] eqn:Hx.
      2:{ now rewrite (yield_items_cons_raise _ _ _ Hx) in H. }
      rewrite (yield_items_cons _ _ _ Hx) in H. rewrite !(yield_items_cons _ _ _ Hx).
      cbn [yield_first yielded raised app] in *. now rewrite IH.
Qed.

(** X18. [parse_api] does not de-duplicate: for a JSON list whose records
    all normalise, it emits the item of every record, in order, repeated
    records included. *)
Theorem parse_api_yields_every_record (l : list value) (items : list Feature) :
  Forall2 (fun raw item => d2i' raw = Ok item) l items ->
  parse_api DictParser_parse (VList l) = {| yielded := items; raised := None |}.
Proof.
  unfold parse_api. cbn [candidates].
  induction 1 as [|raw item l items Hraw _ IH]; [reflexivity|].
  now rewrite (yield_items_cons _ _ _ Hraw), IH.
Qed.

(** X19. [parse_api] emits nothing and raises nothing for a JSON answer
    that is no list and, when it is a dictionary, holds a list under none of
    the keys 'locations', 'agences', 'agencies', 'items', 'branches' and
    'pois'. *)
Theorem parse_api_without_a_list (data : value) :
  is_list data = false ->
  (forall d, data = VDict d ->
     forallb (fun k => negb (is_list (dict_get d k))) api_keys = true) ->
  parse_api DictParser_parse data = {| yielded := []; raised := None |}.
Proof.
  intros Hl Hd. destruct data as [| | | | | |d]; try reflexivity; [discriminate Hl|].
  specialize (Hd d eq_refl). unfold parse_api. cbn [candidates].
  revert Hd. generalize api_keys. intros keys.
  induction keys as [|k keys IH]; intros H; [reflexivity|].
  cbn [forallb] in H. apply andb_true_iff in H as [Hk H]. cbn [first_list].
  apply negb_true_iff in Hk. rewrite Hk, andb_false_r. now apply IH.
Qed.

End Loops.

(** ** The further properties on sample records *)

(** X2 on the Casablanca record. *)
Lemma returned_item_fields_witness :
  normalize (VDict casablanca) = Ok (item_of (normalize (VDict casablanca)))
  /\ (forall k,
        In k ["street_address"; "city"; "state"; "postcode"; "phone"; "email"; "ref"] ->
        is_Some (item_of (normalize (VDict casablanca)) !! k))
  /\ truthy (item_get (item_of (normalize (VDict casablanca))) "name") = false
  /\ (truthy (display_name (DictParser_own_names casablanca) casablanca) = true ->
      item_of (normalize (VDict casablanca)) !! "name" = None).
Proof.
  assert (Ha : normalize (VDict casablanca) = Ok (item_of (normalize (VDict casablanca))))
    by (apply returns_item; run).
  split; [exact Ha|].
  exact (returned_item_fields DictParser_own_names casablanca _ Ha).
Defined.

(** X3 on a nameless record with an empty city, whose key is a tuple. *)
Lemma dedup_key_names_the_branch_witness :
  normalize (VDict nameless_east) = Ok (item_of (normalize (VDict nameless_east)))
  /\ dedup_key (item_of (normalize (VDict nameless_east)))
     = if truthy (item_get (item_of (normalize (VDict nameless_east))) "ref")
       then KVal (item_get (item_of (normalize (VDict nameless_east))) "ref")
       else KTuple (py_str (item_get (item_of (normalize (VDict nameless_east))) "lat"))
              (py_str (item_get (item_of (normalize (VDict nameless_east))) "lon"))
              (item_get (item_of (normalize (VDict nameless_east))) "branch").
Proof.
  assert (Ha : normalize (VDict nameless_east)
               = Ok (item_of (normalize (VDict nameless_east))))
    by (apply returns_item; run).
  split; [exact Ha|].
  exact (dedup_key_names_the_branch DictParser_own_names nameless_east _ Ha).
Defined.

(** X4 on the Casablanca record and the field 'opening_hours'. *)
Lemma other_fields_are_left_alone_witness :
  normalize (VDict casablanca) = Ok (item_of (normalize (VDict casablanca)))
  /\ ~ In "opening_hours"
         ["name"; "branch"; "street_address"; "city"; "state"; "postcode"; "phone";
          "email"; "lat"; "lon"; "ref"; "extras"]
  /\ item_of (normalize (VDict casablanca)) !! "opening_hours"
     = DictParser_own_names casablanca !! "opening_hours".
Proof.
  assert (Ha : normalize (VDict casablanca) = Ok (item_of (normalize (VDict casablanca))))
    by (apply returns_item; run).
  assert (Hk : ~ In "opening_hours"
                   ["name"; "branch"; "street_address"; "city"; "state"; "postcode";
                    "phone"; "email"; "lat"; "lon"; "ref"; "extras"])
    by (cbn [In]; intuition discriminate).
  split; [exact Ha|]. split; [exact Hk|].
  exact (other_fields_are_left_alone DictParser_own_names casablanca _ _ Ha Hk).
Defined.

(** X5 on a record whose coordinates are JSON numbers. *)
Lemma convertible_coordinates_are_stored_witness :
  truthy (raw_lat rabat_numeric) = true /\ truthy (raw_lon rabat_numeric) = true
  /\ py_float (decimal_point (raw_lat rabat_numeric)) = Some rabat_latitude
  /\ py_float (decimal_point (raw_lon rabat_numeric)) = Some rabat_longitude
  /\ normalize (VDict rabat_numeric) = Ok (item_of (normalize (VDict rabat_numeric)))
  /\ item_of (normalize (VDict rabat_numeric)) !! "lat" = Some (VFloat rabat_latitude)
  /\ item_of (normalize (VDict rabat_numeric)) !! "lon" = Some (VFloat rabat_longitude).
Proof.
  assert (Ha : normalize (VDict rabat_numeric)
               = Ok (item_of (normalize (VDict rabat_numeric))))
    by (apply returns_item; run).
  do 4 (split; [reflexivity|]). split; [exact Ha|].
  exact (convertible_coordinates_are_stored DictParser_own_names rabat_numeric
           rabat_latitude rabat_longitude eq_refl eq_refl eq_refl eq_refl _ Ha).
Defined.

(** X6 on a record whose longitude is the text "west". *)
Lemma half_converted_coordinates_witness :
  truthy (raw_lat bad_longitude) = true /\ truthy (raw_lon bad_longitude) = true
  /\ py_float (decimal_point (raw_lat bad_longitude)) = Some safi_latitude
  /\ py_float (decimal_point (raw_lon bad_longitude)) = None
  /\ normalize (VDict bad_longitude) = Ok (item_of (normalize (VDict bad_longitude)))
  /\ item_of (normalize (VDict bad_longitude)) !! "lat" = Some (VFloat safi_latitude)
  /\ item_of (normalize (VDict bad_longitude)) !! "lon"
     = DictParser_own_names bad_longitude !! "lon".
Proof.
  assert (Ha : normalize (VDict bad_longitude)
               = Ok (item_of (normalize (VDict bad_longitude))))
    by (apply returns_item; run).
  assert (Hx : py_float (decimal_point (raw_lat bad_longitude)) = Some safi_latitude) by run.
  assert (Hy : py_float (decimal_point (raw_lon bad_longitude)) = None) by run.
  do 2 (split; [reflexivity|]). split; [exact Hx|]. split; [exact Hy|]. split; [exact Ha|].
  exact (half_converted_coordinates DictParser_own_names bad_longitude safi_latitude _
           eq_refl eq_refl Hx Hy Ha).
Defined.

(** X7 on the record with an empty city. *)
Lemma empty_ref_needs_dash_city_witness :
  normalize (VDict empty_city) = Ok (item_of (normalize (VDict empty_city)))
  /\ truthy (item_get (item_of (normalize (VDict empty_city))) "ref") = false
  /\ exists city branch,
       item_of (normalize (VDict empty_city)) !! "city" = Some (VStr city)
       /\ only_dashes city = true
       /\ item_get_or (item_of (normalize (VDict empty_city))) "branch" (VStr "")
          = VStr branch
       /\ only_dashes branch = true.
Proof.
  assert (Ha : normalize (VDict empty_city) = Ok (item_of (normalize (VDict empty_city))))
    by (apply returns_item; run).
  assert (Hr : truthy (item_get (item_of (normalize (VDict empty_city))) "ref") = false)
    by run.
  split; [exact Ha|]. split; [exact Hr|].
  exact (empty_ref_needs_dash_city DictParser_own_names empty_city _ Ha Hr).
Defined.

(** X9 on an empty object between blanks, with a semicolon. *)
Lemma sanitize_unwraps_payload_witness :
  str_forall is_space " " = true /\ str_forall (Ascii.eqb ";") ";" = true
  /\ is_space "{" = false /\ is_space "}" = false /\ mem_char "}" ";>" = false
  /\ _json_sanitize (" " +:+ String "{" ("" +:+ String "}" "") +:+ ";" +:+ " ")
     = String "{" ("" +:+ String "}" "").
Proof.
  do 5 (split; [reflexivity|]).
  exact (sanitize_unwraps_payload " " "" ";" " " "{" "}"
           eq_refl eq_refl eq_refl eq_refl eq_refl eq_refl).
Defined.

(** X10 on an object followed by a semicolon and a closing tag in capitals. *)
Lemma sanitize_cuts_script_close_witness :
  str_lower "</SCRIPT>" = "</script>" /\ str_forall is_space " " = true
  /\ _json_sanitize ("{};" +:+ "</SCRIPT>" +:+ " ") = lstrip_by is_space "{};".
Proof.
  do 2 (split; [reflexivity|]).
  exact (sanitize_cuts_script_close "{};" "</SCRIPT>" " " eq_refl eq_refl).
Defined.

(** X11 on a script block that sets the initial state. *)
Lemma captured_payloads_are_clean_witness :
  In (Payload, "{}") (captures state_script)
  /\ (exists body, "{}" = String "{" (body +:+ "}"))
  /\ _json_sanitize "{}" = "{}".
Proof.
  assert (Hin : In (Payload, "{}") (captures state_script))
    by (vm_compute; left; reflexivity).
  split; [exact Hin|].
  exact (captured_payloads_are_clean state_script Payload "{}" Hin).
Defined.

(** X12 on a response with one script block, without a brace. *)
Lemma scripts_without_brace_yield_nothing_witness :
  forallb (fun s => negb (mem_char "{" s)) ([] ++ [plain_script]) = true
  /\ collect_locations loads_empty_object ([] ++ [plain_script]) = Ok []
  /\ parse_locator DictParser_own_names loads_empty_object
       {| json_scripts := []; all_scripts := [plain_script] |}
     = {| yielded := []; raised := None |}.
Proof.
  split; [reflexivity|].
  exact (scripts_without_brace_yield_nothing DictParser_own_names loads_empty_object
           {| json_scripts := []; all_scripts := [plain_script] |} eq_refl).
Defined.

Lemma emit_rabat_fes :
  emit DictParser_own_names [VDict rabat_17; VDict fes_21] []
  = {| yielded := [item_of (normalize (VDict rabat_17)); item_of (normalize (VDict fes_21))];
       raised := None |}.
Proof.
  assert (Ha : normalize (VDict rabat_17) = Ok (item_of (normalize (VDict rabat_17))))
    by (apply returns_item; run).
  assert (Hb : normalize (VDict fes_21) = Ok (item_of (normalize (VDict fes_21))))
    by (apply returns_item; run).
  rewrite (emit_cons _ _ _ _ _ Ha).
  replace (hashable_key (dedup_key (item_of (normalize (VDict rabat_17))))) with true by run.
  cbn [negb key_in existsb]. rewrite (emit_cons _ _ _ _ _ Hb).
  replace (hashable_key (dedup_key (item_of (normalize (VDict fes_21))))) with true by run.
  replace (key_in (dedup_key (item_of (normalize (VDict fes_21))))
             [dedup_key (item_of (normalize (VDict rabat_17)))])
    with false by run.
  reflexivity.
Qed.

(** X13 on two records with different ids. *)
Lemma emitted_keys_are_distinct_witness :
  yielded (emit DictParser_own_names [VDict rabat_17; VDict fes_21] []) !! 0
  = Some (item_of (normalize (VDict rabat_17)))
  /\ yielded (emit DictParser_own_names [VDict rabat_17; VDict fes_21] []) !! 1
     = Some (item_of (normalize (VDict fes_21)))
  /\ (0 < 1)%nat
  /\ key_eqb (dedup_key (item_of (normalize (VDict fes_21))))
       (dedup_key (item_of (normalize (VDict rabat_17)))) = false
  /\ key_in (dedup_key (item_of (normalize (VDict rabat_17)))) [] = false.
Proof.
  assert (H0 : yielded (emit DictParser_own_names [VDict rabat_17; VDict fes_21] []) !! 0
               = Some (item_of (normalize (VDict rabat_17))))
    by (rewrite emit_rabat_fes; reflexivity).
  assert (H1 : yielded (emit DictParser_own_names [VDict rabat_17; VDict fes_21] []) !! 1
               = Some (item_of (normalize (VDict fes_21))))
    by (rewrite emit_rabat_fes; reflexivity).
  split; [exact H0|]. split; [exact H1|]. split; [lia|].
  exact (emitted_keys_are_distinct DictParser_own_names _ [] 0 1 _ _ H0 H1 ltac:(lia)).
Defined.

(** X15 on a response whose JSON script block is returned by both queries. *)
Lemma repeated_script_adds_nothing_witness :
  In state_script [state_script]
  /\ parse_locator DictParser_own_names loads_empty_object
       {| json_scripts := [state_script];
          all_scripts := [plain_script] ++ state_script :: [] |}
     = parse_locator DictParser_own_names loads_empty_object
         {| json_scripts := [state_script]; all_scripts := [plain_script] ++ [] |}.
Proof.
  assert (Hin : In state_script [state_script]) by (left; reflexivity).
  split; [exact Hin|].
  exact (repeated_script_adds_nothing DictParser_own_names loads_empty_object
           [state_script] [plain_script] [] state_script Hin).
Defined.

(** X16 on a list with a number among its records. *)
Lemma rejected_record_ends_the_run_witness :
  normalize (VInt 5) = Raise AttributeError
  /\ emit DictParser_own_names ([VDict rabat_17] ++ VInt 5 :: [VDict fes_21]) []
     = {| yielded := yielded (emit DictParser_own_names [VDict rabat_17] []);
          raised := Some AttributeError |}
  /\ yield_items DictParser_own_names ([VDict rabat_17] ++ VInt 5 :: [VDict fes_21])
     = {| yielded := yielded (yield_items DictParser_own_names [VDict rabat_17]);
          raised := Some AttributeError |}.
Proof.
  destruct (rejected_record_ends_the_run DictParser_own_names
              [VDict rabat_17] [VDict fes_21] (VInt 5) AttributeError [] eq_refl)
    as [H1 H2].
  split; [reflexivity|]. split; [apply H1; run | apply H2; run].
Defined.

(** X17 on a record whose id is the list [[7]]. *)
Lemma unhashable_id_ends_the_run_witness :
  normalize (VDict agadir_list_id) = Ok (item_of (normalize (VDict agadir_list_id)))
  /\ truthy (dict_get agadir_list_id "id") = true
  /\ hashable (dict_get agadir_list_id "id") = false
  /\ emit DictParser_own_names ([VDict rabat_17] ++ VDict agadir_list_id :: [VDict fes_21]) []
     = {| yielded := yielded (emit DictParser_own_names [VDict rabat_17] []);
          raised := Some TypeError |}
  /\ yielded (yield_items DictParser_own_names
                ([VDict rabat_17] ++ VDict agadir_list_id :: [VDict fes_21]))
     = yielded (yield_items DictParser_own_names [VDict rabat_17])
       ++ item_of (normalize (VDict agadir_list_id))
          :: yielded (yield_items DictParser_own_names [VDict fes_21]).
Proof.
  assert (Ha : normalize (VDict agadir_list_id)
               = Ok (item_of (normalize (VDict agadir_list_id))))
    by (apply returns_item; run).
  destruct (unhashable_id_ends_the_run DictParser_own_names
              [VDict rabat_17] [VDict fes_21] agadir_list_id _ [] Ha eq_refl eq_refl)
    as [H1 H2].
  split; [exact Ha|]. do 2 (split; [reflexivity|]).
  split; [apply H1; run | apply H2; run].
Defined.

(** X18 on a JSON list that holds one record twice. *)
Lemma parse_api_yields_every_record_witness :
  Forall2 (fun raw item => normalize raw = Ok item)
    [VDict rabat_17; VDict rabat_17]
    [item_of (normalize (VDict rabat_17)); item_of (normalize (VDict rabat_17))]
  /\ parse_api DictParser_own_names (VList [VDict rabat_17; VDict rabat_17])
     = {| yielded := [item_of (normalize (VDict rabat_17));
                      item_of (normalize (VDict rabat_17))];
          raised := None |}.
Proof.
  assert (Ha : normalize (VDict rabat_17) = Ok (item_of (normalize (VDict rabat_17))))
    by (apply returns_item; run).
  assert (H : Forall2 (fun raw item => normalize raw = Ok item)
                [VDict rabat_17; VDict rabat_17]
                [item_of (normalize (VDict rabat_17)); item_of (normalize (VDict rabat_17))])
    by (repeat constructor; exact Ha).
  split; [exact H|].
  exact (parse_api_yields_every_record DictParser_own_names _ _ H).
Defined.

(** X19 on an answer whose 'locations' is a text. *)
Lemma parse_api_without_a_list_witness :
  is_list api_without_list = false
  /\ parse_api DictParser_own_names api_without_list = {| yielded := []; raised := None |}.
Proof.
  split; [reflexivity|].
  apply (parse_api_without_a_list DictParser_own_names api_without_list eq_refl).
  intros d H. inversion H; subst d. reflexivity.
Defined.

(** X20 on a latitude with two commas. *)
Lemma two_separators_defeat_conversion_witness :
  2 <= str_count "," "33,573,1" + str_count "." "33,573,1"
  /\ float_of_str (str_replace "," "." "33,573,1") = None
  /\ raw_lat two_commas = VStr "33,573,1"
  /\ normalize (VDict two_commas) = Ok (item_of (normalize (VDict two_commas)))
  /\ item_of (normalize (VDict two_commas)) !! "lat" = DictParser_own_names two_commas !! "lat"
  /\ item_of (normalize (VDict two_commas)) !! "lon" = DictParser_own_names two_commas !! "lon".
Proof.
  assert (Hc : 2 <= str_count "," "33,573,1" + str_count "." "33,573,1") by (cbn; lia).
  assert (Ha : normalize (VDict two_commas) = Ok (item_of (normalize (VDict two_commas))))
    by (apply returns_item; run).
  destruct (two_separators_defeat_conversion DictParser_own_names "33,573,1" Hc)
    as [Hnone Hitem].
  split; [exact Hc|]. split; [exact Hnone|]. split; [reflexivity|]. split; [exact Ha|].
  exact (proj1 (Hitem two_commas _ Ha) eq_refl).
Defined.
